(** * Context and unified output of GNU diff (context.c)

    A shallow embedding of the context-format output routines: the edit
    script ([struct change]), the hunk grouper [find_hunk], the ignore
    marking [mark_ignorable], the function-header search [find_function],
    the range and label printers and the two hunk emitters.

    Conventions of the embedding.
    - [lin], [long int] and [int] values are integers of [Z]; the source
      never relies on wrap-around of a signed type (its own comment on
      [find_hunk] excludes overflow), and the only conversions that change
      the type of a value ([size_t], the casts of [time_t]) are written out.
    - A [char const *] is an address in the text the two files were read
      into; the memory it points to is the list of bytes from there on.
    - The output stream [outfile] is the string of the bytes written so far.
    - An array is the function from its indices to its elements.
    - A chain of [struct change] is a record whose [link] holds the rest of
      the chain; writing a field is a functional update of the record.
    - [abort ()] is the outcome [Aborted]. *)

From Stdlib Require Import ZArith List Bool Ascii String Lia.
From Equations Require Import Equations.
Import ListNotations.

#[local] Set Warnings "-register-all".
#[local] Open Scope Z_scope.

(** ** C integer types (LP64) and printf conversions *)

Module C.

Definition INT_MAX : Z := 2 ^ 31 - 1.
Definition LONG_MIN : Z := - 2 ^ 63.
Definition LONG_MAX : Z := 2 ^ 63 - 1.
Definition INTMAX_MIN : Z := - 2 ^ 63.
Definition INTMAX_MAX : Z := 2 ^ 63 - 1.
Definition UINTMAX_MAX : Z := 2 ^ 64 - 1.

(** Conversion of an integer value to an unsigned or signed 64-bit type. *)
Definition to_unsigned64 (z : Z) : Z := z mod 2 ^ 64.
Definition to_signed64 (z : Z) : Z := (z + 2 ^ 63) mod 2 ^ 64 - 2 ^ 63.

Definition to_size_t := to_unsigned64.
Definition to_long := to_signed64.
Definition to_intmax_t := to_signed64.
Definition to_uintmax_t := to_unsigned64.

Definition newline : ascii := "010"%char.
Definition tab : ascii := "009"%char.

(** [c_isspace] of c-ctype.h: space, \t, \n, \v, \f, \r. *)
Definition c_isspace (c : ascii) : bool :=
  (c =? " ")%char || (c =? "009")%char || (c =? "010")%char
  || (c =? "011")%char || (c =? "012")%char || (c =? "013")%char.

Definition digit (d : Z) : ascii := ascii_of_nat (48 + Z.to_nat d).

(** The decimal digits of a non-negative number, most significant first;
    [fuel] bounds the number of digits. *)
Fixpoint digits_from (fuel : nat) (n : Z) (acc : list ascii) : list ascii :=
  match fuel with
  | O => acc
  | S fuel' =>
      let acc' := digit (n mod 10) :: acc in
      if n / 10 =? 0 then acc' else digits_from fuel' (n / 10) acc'
  end.

Definition digits (n : Z) : list ascii :=
  digits_from (S (Z.to_nat (Z.log2 n))) n [].

(** ["%ld"], ["%jd"], ["%ju"]: sign and digits. *)
Definition fmt_d (n : Z) : string :=
  if n <? 0 then String "-" (string_of_list_ascii (digits (- n)))
  else string_of_list_ascii (digits n).

(** ["%.Pd"]: at least [prec] digits, padded with zeros on the left. *)
Definition fmt_prec_d (prec : nat) (n : Z) : string :=
  let ds := digits (Z.abs n) in
  let padded := repeat "0"%char (prec - List.length ds) ++ ds in
  if n <? 0 then String "-" (string_of_list_ascii padded)
  else string_of_list_ascii padded.

End C.

(** ** diff.h *)

(** What kind of changes a hunk contains. *)
Inductive changes : Type := UNCHANGED | OLD | NEW | CHANGED.

Definition changes_code (c : changes) : Z :=
  match c with UNCHANGED => 0 | OLD => 1 | NEW => 2 | CHANGED => 3 end.

(** [c & flag] is non-zero. *)
Definition changes_has (c flag : changes) : bool :=
  negb (Z.land (changes_code c) (changes_code flag) =? 0).

(** [! c]. *)
Definition changes_is_zero (c : changes) : bool := changes_code c =? 0.

Definition lin := Z.

(** The edit script: a chain of [struct change]. *)
Inductive change : Type := Build_change {
  link : option change;   (* next edit command *)
  inserted : lin;         (* # lines of file 1 changed here *)
  deleted : lin;          (* # lines of file 0 changed here *)
  line0 : lin;            (* line number of 1st deleted line *)
  line1 : lin;            (* line number of 1st inserted line *)
  ignore : bool           (* flag used in context.c *)
}.

Definition set_link (c : change) (l : option change) : change :=
  Build_change l (inserted c) (deleted c) (line0 c) (line1 c) (ignore c).

Definition set_ignore (c : change) (b : bool) : change :=
  Build_change (link c) (inserted c) (deleted c) (line0 c) (line1 c) b.

(** The part of [struct stat] the header reads. *)
Record stat : Type := Build_stat {
  st_mtime : Z;
  st_mtime_nsec : Z
}.

(** The part of [struct file_data] the output routines read.  [linbuf i]
    is the address of the first byte of line [i], for
    [- prefix_lines <= i <= valid_lines]. *)
Record file_data : Type := Build_file_data {
  name : string;
  file_stat : stat;
  linbuf : lin -> Z;
  valid_lines : lin;
  prefix_lines : lin
}.

(** The outcome of a call that may reach [abort ()]. *)
Inductive outcome (A : Type) : Type :=
| Returned (a : A)
| Aborted.
Arguments Returned {A} a.
Arguments Aborted {A}.

(** ** context.c *)

Section Context.

#[local] Open Scope string_scope.
#[local] Open Scope Z_scope.
Import C.

(** *** Collaborators that are not part of context.c *)

(** system.h: the largest [lin]. *)
Variable LIN_MAX : lin.

(** intprops.h: [TYPE_MINIMUM (time_t)] and [TYPE_MAXIMUM (time_t)]. *)
Variable time_t_min time_t_max : Z.

(** Options and inputs set up by diff.c. *)
Variable context : lin.
Variable ignore_blank_lines : bool.
Variable initial_tab : bool.
Variable suppress_blank_empty : bool.
Variable time_format : string.
Variable file_label : nat -> option string.
Variable files : nat -> file_data.

(** The text of the two files, read by io.c; every line of it ends in a
    newline.  It is not written during output. *)
Variable memory : list ascii.

(** The memory a [char const *] points to. *)
Definition mem_at (p : Z) : list ascii :=
  if p <? 0 then [] else skipn (Z.to_nat p) memory.

(** regex.h: a compiled pattern, whether its [fastmap] is set, and
    [re_search (pattern, string, size, start, range, NULL)] where [string]
    is given as the [size] bytes it points to. *)
Variable re_pattern_buffer : Type.
Variable fastmap : re_pattern_buffer -> bool.
Variable re_search : re_pattern_buffer -> list ascii -> Z -> Z -> Z -> Z.
Variable ignore_regexp : re_pattern_buffer.
Variable function_regexp : re_pattern_buffer.

(** time.h and strftime.h: [localtime] may fail; [nstrftime] returns the
    number of bytes it stored and the bytes themselves. *)
Variable tm : Type.
Variable localtime : Z -> option tm.
Variable nstrftime : string -> tm -> Z -> Z -> Z * string.

(** stat-time.h. *)
Definition get_stat_mtime_ns (st : stat) : Z := st_mtime_nsec st.

(** util.c keeps state of its own (whether output has begun, the pending
    header); it is carried along with the output stream. *)
Variable util_state : Type.

Record state : Type := Build_state {
  outfile : string;
  util : util_state;
  (* Last place find_function started searching from. *)
  find_function_last_search : lin;
  (* The value find_function returned when it started searching there. *)
  find_function_last_match : lin
}.

(** util.c: the routines context.c calls. *)
Variable translate_range : file_data -> lin -> lin -> Z * Z.
Variable analyze_hunk : change -> changes * lin * lin * lin * lin.
Variable begin_output : util_state -> string -> util_state * string.
Variable print_1_line :
  option string -> file_data -> lin -> util_state -> string -> util_state * string.
Variable print_script :
  option change -> (change -> outcome change) -> (change -> state -> state) ->
  state -> outcome state.

(** *** Writing to [outfile] *)

Definition NL : string := String newline EmptyString.
Definition TAB : string := String tab EmptyString.

Definition fputs (s : string) (st : state) : state :=
  Build_state (outfile st ++ s) (util st)
    (find_function_last_search st) (find_function_last_match st).

Definition putc (c : ascii) (st : state) : state := fputs (String c EmptyString) st.

Definition fwrite (bytes : list ascii) (st : state) : state :=
  fputs (string_of_list_ascii bytes) st.

(** A call into util.c that writes to [outfile]. *)
Definition call_util (f : util_state -> string -> util_state * string)
    (st : state) : state :=
  let '(u, out) := f (util st) (outfile st) in
  Build_state out u (find_function_last_search st) (find_function_last_match st).

(** *** print_context_label, print_context_header *)

Definition print_context_label (mark : string) (inf : file_data)
    (name : string) (label : option string) (st : state) : state :=
  match label with
  | Some label => fputs (mark ++ " " ++ label ++ NL) st
  | None =>
      let tm := localtime (st_mtime (file_stat inf)) in
      let nsec := get_stat_mtime_ns (file_stat inf) in
      let formatted :=
        match tm with
        | Some tm =>
            let '(n, buf) := nstrftime time_format tm 0 nsec in
            if n =? 0 then None else Some buf
        | None => None
        end in
      let buf :=
        match formatted with
        | Some buf => buf
        | None =>
            if (LONG_MIN <=? time_t_min) && (time_t_max <=? LONG_MAX) then
              let sec := to_long (st_mtime (file_stat inf)) in
              fmt_d sec ++ "." ++ fmt_prec_d 9 nsec
            else if time_t_max <=? INTMAX_MAX then
              let sec := to_intmax_t (st_mtime (file_stat inf)) in
              fmt_d sec ++ "." ++ fmt_prec_d 9 nsec
            else
              let sec := to_uintmax_t (st_mtime (file_stat inf)) in
              fmt_d sec ++ "." ++ fmt_prec_d 9 nsec
        end in
      fputs (mark ++ " " ++ name ++ TAB ++ buf ++ NL) st
  end.

Definition print_context_header (inf : nat -> file_data)
    (names : nat -> string) (unidiff : bool) (st : state) : state :=
  if unidiff then
    let st := print_context_label "---" (inf 0%nat) (names 0%nat) (file_label 0%nat) st in
    print_context_label "+++" (inf 1%nat) (names 1%nat) (file_label 1%nat) st
  else
    let st := print_context_label "***" (inf 0%nat) (names 0%nat) (file_label 0%nat) st in
    print_context_label "---" (inf 1%nat) (names 1%nat) (file_label 1%nat) st.

(** *** print_context_number_range, print_unidiff_number_range *)

Definition print_context_number_range (file : file_data) (a b : lin)
    (st : state) : state :=
  let '(trans_a, trans_b) := translate_range file a b in
  if trans_b <=? trans_a then fputs (fmt_d trans_b) st
  else fputs (fmt_d trans_a ++ "," ++ fmt_d trans_b) st.

Definition print_unidiff_number_range (file : file_data) (a b : lin)
    (st : state) : state :=
  let '(trans_a, trans_b) := translate_range file a b in
  if trans_b <=? trans_a then
    fputs (if trans_b <? trans_a then fmt_d trans_b ++ ",0" else fmt_d trans_b) st
  else fputs (fmt_d trans_a ++ "," ++ fmt_d (trans_b - trans_a + 1)) st.

(** *** print_context_function *)

(** [for (i = 0; c_isspace (function[i]) && function[i] != '\n'; i++)];
    [mem] is the memory at [function + i]. *)
Fixpoint skip_leading_space (mem : list ascii) (i : nat) : nat :=
  match mem with
  | c :: mem' =>
      if c_isspace c && negb (c =? newline)%char
      then skip_leading_space mem' (S i) else i
  | [] => i
  end.

(** [for (j = i; j < i + 40 && function[j] != '\n'; j++)];
    [mem] is the memory at [function + j]. *)
Fixpoint scan_label (mem : list ascii) (i j : nat) : nat :=
  match mem with
  | c :: mem' =>
      if (j <? i + 40)%nat && negb (c =? newline)%char
      then scan_label mem' i (S j) else j
  | [] => j
  end.

(** [while (i < j && c_isspace (function[j - 1])) j--]. *)
Fixpoint trim_label (function : list ascii) (i j : nat) : nat :=
  match j with
  | S j' =>
      if (i <? j)%nat && c_isspace (nth j' function newline)
      then trim_label function i j' else j
  | O => j
  end.

Definition print_context_function (function : list ascii) (st : state) : state :=
  let st := putc " " st in
  let i := skip_leading_space function 0 in
  let j := scan_label (skipn i function) i i in
  let j := trim_label function i j in
  fwrite (firstn (j - i) (skipn i function)) st.

(** *** find_function *)

Definition set_last_search (st : state) (i : lin) : state :=
  Build_state (outfile st) (util st) i (find_function_last_match st).

Definition set_last_match (st : state) (i : lin) : state :=
  Build_state (outfile st) (util st) (find_function_last_search st) i.

(** The test of the loop body of find_function on line [i]:
    [0 <= re_search (&function_regexp, line, len, 0, len, NULL)]. *)
Definition function_line_matches (linbuf : lin -> Z) (i : lin) : bool :=
  let line := linbuf i in
  let linelen := to_size_t (linbuf (i + 1) - line - 1) in
  (* FIXME: re_search's size args should be size_t, not int.  *)
  let len := Z.min linelen INT_MAX in
  0 <=? re_search function_regexp (firstn (Z.to_nat len) (mem_at line)) len 0 len.

(** The loop [while (last <= --i)] of find_function.  The result is the
    number of the line that matched, if one did, together with the number of
    lines the loop examined. *)
Equations? find_function_scan (linbuf : lin -> Z) (last i : lin)
  : option lin * nat by wf (Z.to_nat (i - last)) lt :=
  find_function_scan linbuf last i with Z_le_dec last (i - 1) => {
    | left _ with function_line_matches linbuf (i - 1) => {
        | true => (Some (i - 1), 1%nat);
        | false =>
            let r := find_function_scan linbuf last (i - 1) in
            (fst r, S (snd r)) };
    | right _ => (None, 0%nat) }.
Proof. lia. Qed.

Definition find_function (linbuf : lin -> Z) (linenum : lin) (st : state)
  : option Z * state :=
  let i := linenum in
  let last := find_function_last_search st in
  let st := set_last_search st i in
  match fst (find_function_scan linbuf last i) with
  | Some i => (Some (linbuf i), set_last_match st i)
  | None =>
      (* If we search back to where we started searching the previous time,
         find the line we found last time.  *)
      if negb (find_function_last_match st =? LIN_MAX)
      then (Some (linbuf (find_function_last_match st)), st)
      else (None, st)
  end.

(** *** pr_context_hunk *)

(** The number of changes of a chain. *)
Fixpoint change_count (c : change) : nat :=
  match link c with
  | Some next => S (change_count next)
  | None => 1%nat
  end.

Definition chain_length (next : option change) : nat :=
  match next with Some c => change_count c | None => 0%nat end.

(** [while (next && next->line0 + next->deleted <= i) next = next->link]. *)
Fixpoint skip_old_changes (c : change) (i : lin) : option change :=
  if line0 c + deleted c <=? i then
    match link c with
    | Some next => skip_old_changes next i
    | None => None
    end
  else Some c.

(** [while (next && next->line1 + next->inserted <= i) next = next->link]. *)
Fixpoint skip_new_changes (c : change) (i : lin) : option change :=
  if line1 c + inserted c <=? i then
    match link c with
    | Some next => skip_new_changes next i
    | None => None
    end
  else Some c.

(** The loop [for (i = first0; i <= last0; i++)] over the lines of file 0,
    with [n] lines left to print. *)
Fixpoint context_old_lines (n : nat) (i : lin) (next : option change)
    (st : state) : state :=
  match n with
  | O => st
  | S n' =>
      (* Skip past changes that apply (in file 0) only to lines before line I. *)
      let next := match next with Some c => skip_old_changes c i | None => None end in
      (* Compute the marking for line I. *)
      let prefix :=
        match next with
        | Some c =>
            if line0 c <=? i then (if inserted c >? 0 then "!" else "-")
            else " "
        | None => " "
        end in
      let st := call_util (print_1_line (Some prefix) (files 0%nat) i) st in
      context_old_lines n' (i + 1) next st
  end.

(** The loop [for (i = first1; i <= last1; i++)] over the lines of file 1. *)
Fixpoint context_new_lines (n : nat) (i : lin) (next : option change)
    (st : state) : state :=
  match n with
  | O => st
  | S n' =>
      let next := match next with Some c => skip_new_changes c i | None => None end in
      let prefix :=
        match next with
        | Some c =>
            if line1 c <=? i then (if deleted c >? 0 then "!" else "+")
            else " "
        | None => " "
        end in
      let st := call_util (print_1_line (Some prefix) (files 1%nat) i) st in
      context_new_lines n' (i + 1) next st
  end.

(** The window of a hunk: a context's width before and after. *)
Definition expand_first (first : lin) : lin :=
  Z.max (first - context) (- prefix_lines (files 0%nat)).

Definition expand_last (file : file_data) (last : lin) : lin :=
  if last <? valid_lines file - context then last + context
  else valid_lines file - 1.

(** [function = NULL; if (function_regexp.fastmap) function = find_function (...)]. *)
Definition preceding_function (first0 : lin) (st : state) : option Z * state :=
  if fastmap function_regexp then find_function (linbuf (files 0%nat)) first0 st
  else (None, st).

Definition pr_context_hunk (hunk : change) (st : state) : state :=
  (* Determine range of line numbers involved in each file.  *)
  let '(changes, first0, last0, first1, last1) := analyze_hunk hunk in
  if changes_is_zero changes then st
  else
    (* Include a context's width before and after.  *)
    let first0 := expand_first first0 in
    let first1 := expand_first first1 in
    let last0 := expand_last (files 0%nat) last0 in
    let last1 := expand_last (files 1%nat) last1 in
    (* If desired, find the preceding function definition line in file 0.  *)
    let '(function, st) := preceding_function first0 st in
    let st := call_util begin_output st in
    let st := fputs "***************" st in
    let st :=
      match function with
      | Some f => print_context_function (mem_at f) st
      | None => st
      end in
    let st := fputs (NL ++ "*** ") st in
    let st := print_context_number_range (files 0%nat) first0 last0 st in
    let st := fputs (" ****" ++ NL) st in
    let st :=
      if changes_has changes OLD
      then context_old_lines (Z.to_nat (last0 - first0 + 1)) first0 (Some hunk) st
      else st in
    let st := fputs "--- " st in
    let st := print_context_number_range (files 1%nat) first1 last1 st in
    let st := fputs (" ----" ++ NL) st in
    if changes_has changes NEW
    then context_new_lines (Z.to_nat (last1 - first1 + 1)) first1 (Some hunk) st
    else st.

(** *** pr_unidiff_hunk *)

(** [**line == '\n'] for [line = &file->linbuf[i]]. *)
Definition line_is_empty (file : file_data) (i : lin) : bool :=
  match mem_at (linbuf file i) with
  | c :: _ => (c =? newline)%char
  | [] => false
  end.

(** A line that isn't a difference: output the context from file 0. *)
Definition unidiff_context_line (i : lin) (st : state) : state :=
  let st :=
    if negb (suppress_blank_empty && line_is_empty (files 0%nat) i)
    then putc (if initial_tab then tab else " "%char) st
    else st in
  call_util (print_1_line None (files 0%nat) i) st.

(** A deleted or inserted line of [file], flagged with [flag]. *)
Definition unidiff_changed_line (flag : ascii) (file : file_data) (i : lin)
    (st : state) : state :=
  let st := putc flag st in
  let st :=
    if initial_tab && negb (suppress_blank_empty && line_is_empty file i)
    then putc tab st
    else st in
  call_util (print_1_line None file i) st.

(** [k = next->deleted; while (k--) ...], with the cursor [i] of file 0. *)
Fixpoint unidiff_deleted_lines (k : nat) (i : lin) (st : state) : lin * state :=
  match k with
  | O => (i, st)
  | S k' =>
      unidiff_deleted_lines k' (i + 1)
        (unidiff_changed_line "-" (files 0%nat) i st)
  end.

(** [k = next->inserted; while (k--) ...], with the cursor [j] of file 1. *)
Fixpoint unidiff_inserted_lines (k : nat) (j : lin) (st : state) : lin * state :=
  match k with
  | O => (j, st)
  | S k' =>
      unidiff_inserted_lines k' (j + 1)
        (unidiff_changed_line "+" (files 1%nat) j st)
  end.

Lemma unidiff_deleted_lines_cursor k i st :
  fst (unidiff_deleted_lines k i st) = i + Z.of_nat k.
Proof.
  revert i st; induction k as [|k IH]; intros i st; simpl.
  - lia.
  - rewrite IH. lia.
Qed.

Lemma unidiff_inserted_lines_cursor k j st :
  fst (unidiff_inserted_lines k j st) = j + Z.of_nat k.
Proof.
  revert j st; induction k as [|k IH]; intros j st; simpl.
  - lia.
  - rewrite IH. lia.
Qed.

Lemma chain_length_link c : (chain_length (link c) < change_count c)%nat.
Proof. destruct c as [[n|] ? ? ? ? ?]; simpl; lia. Qed.

(** The body of the loop for a difference: the deleted part, then the
    inserted part; the result holds the cursors [i] and [j] after it. *)
Definition unidiff_change_lines (c : change) (i j : lin) (st : state)
  : lin * lin * state :=
  (* For each difference, first output the deleted part. *)
  let '(i, st) := unidiff_deleted_lines (Z.to_nat (deleted c)) i st in
  (* Then output the inserted part. *)
  let '(j, st) := unidiff_inserted_lines (Z.to_nat (inserted c)) j st in
  (i, j, st).

Lemma unidiff_change_lines_cursors c i j st :
  fst (fst (unidiff_change_lines c i j st)) = i + Z.of_nat (Z.to_nat (deleted c))
  /\ snd (fst (unidiff_change_lines c i j st)) = j + Z.of_nat (Z.to_nat (inserted c)).
Proof.
  unfold unidiff_change_lines.
  pose proof (unidiff_deleted_lines_cursor (Z.to_nat (deleted c)) i st) as Hd.
  destruct (unidiff_deleted_lines (Z.to_nat (deleted c)) i st) as [i' st'].
  pose proof (unidiff_inserted_lines_cursor (Z.to_nat (inserted c)) j st') as Hi.
  destruct (unidiff_inserted_lines (Z.to_nat (inserted c)) j st') as [j' st''].
  simpl in *. split; assumption.
Qed.

Definition inspect {A : Type} (a : A) : {b : A | a = b} := exist _ a eq_refl.

(** The loop [while (i <= last0 || j <= last1)]; the result holds the
    cursors [i] and [j] when the loop is left. *)
Equations? unidiff_loop (last0 last1 i j : lin) (next : option change)
    (st : state) : lin * lin * state
  by wf (chain_length next
         + Z.to_nat (Z.max (last0 + 1 - i) (last1 + 1 - j)))%nat lt :=
  unidiff_loop last0 last1 i j next st
    with Sumbool.sumbool_of_bool ((i <=? last0) || (j <=? last1)) => {
    | right _ => (i, j, st);
    | left _ with next => {
        | None =>
            (* If the line isn't a difference, output the context from file 0. *)
            unidiff_loop last0 last1 (i + 1) (j + 1) None
              (unidiff_context_line i st);
        | Some c with Z_lt_dec i (line0 c) => {
            | left _ =>
                unidiff_loop last0 last1 (i + 1) (j + 1) (Some c)
                  (unidiff_context_line i st);
            | right _ with inspect (unidiff_change_lines c i j st) => {
                | exist _ (i', j', st') _ =>
                    (* We're done with this hunk, so on to the next! *)
                    unidiff_loop last0 last1 i' j' (link c) st' } } } }.
Proof.
  - apply orb_true_iff in e. rewrite !Z.leb_le in e. lia.
  - pose proof (unidiff_change_lines_cursors c i j st) as [Hi Hj].
    rewrite e0 in Hi, Hj. simpl in Hi, Hj.
    pose proof (chain_length_link c). lia.
  - apply orb_true_iff in e. rewrite !Z.leb_le in e. lia.
Qed.

Definition pr_unidiff_hunk (hunk : change) (st : state) : state :=
  (* Determine range of line numbers involved in each file.  *)
  let '(changes, first0, last0, first1, last1) := analyze_hunk hunk in
  if changes_is_zero changes then st
  else
    (* Include a context's width before and after.  *)
    let first0 := expand_first first0 in
    let first1 := expand_first first1 in
    let last0 := expand_last (files 0%nat) last0 in
    let last1 := expand_last (files 1%nat) last1 in
    (* If desired, find the preceding function definition line in file 0.  *)
    let '(function, st) := preceding_function first0 st in
    let st := call_util begin_output st in
    let st := fputs "@@ -" st in
    let st := print_unidiff_number_range (files 0%nat) first0 last0 st in
    let st := fputs " +" st in
    let st := print_unidiff_number_range (files 1%nat) first1 last1 st in
    let st := fputs " @@" st in
    let st :=
      match function with
      | Some f => print_context_function (mem_at f) st
      | None => st
      end in
    let st := putc newline st in
    snd (unidiff_loop last0 last1 first0 first1 (Some hunk) st).

(** *** find_hunk *)

(** The body of the [do ... while] loop runs once for [start]; [link start]
    is the change the loop examines next. *)
Fixpoint find_hunk (start : change) : outcome change :=
  (* Threshold distance is CONTEXT if the second change is ignorable,
     2 * CONTEXT + 1 otherwise.  *)
  let ignorable_threshold := context in
  let non_ignorable_threshold := 2 * context + 1 in
  (* Compute number of first line in each file beyond this changed.  *)
  let top0 := line0 start + deleted start in
  let top1 := line1 start + inserted start in
  let prev := start in
  match link start with
  | None => Returned prev
  | Some start =>
      let thresh :=
        if ignore start then ignorable_threshold else non_ignorable_threshold in
      (* It is not supposed to matter which file we check in the end-test.
         If it would matter, crash.  *)
      if negb (line0 start - top0 =? line1 start - top1) then Aborted
      else if line0 start - top0 <? thresh
           (* Keep going if less than THRESH lines elapse
              before the affected line.  *)
           then find_hunk start
           else Returned prev
  end.

(** *** mark_ignorable *)

(** The body of [while (script)] for a change [script].  The iterations that
    follow write the changes reached through [next], so the restored link
    holds the rest of the chain as they leave it. *)
Fixpoint mark_ignorable_loop (script : change) : change :=
  let next := link script in
  (* Turn this change into a hunk: detach it from the others.  *)
  let script := set_link script None in
  (* Determine whether this change is ignorable.  *)
  let '(changes, _, _, _, _) := analyze_hunk script in
  let script := set_ignore script (changes_is_zero changes) in
  (* Reconnect the chain as before, and advance to the following change.  *)
  set_link script
    match next with
    | Some next => Some (mark_ignorable_loop next)
    | None => None
    end.

Definition mark_ignorable (script : option change) : option change :=
  match script with
  | Some script => Some (mark_ignorable_loop script)
  | None => None
  end.

(** *** print_context_script *)

(** [for (e = script; e; e = e->link) e->ignore = false]. *)
Fixpoint clear_ignore_loop (e : change) : change :=
  set_link (set_ignore e false)
    match link e with
    | Some next => Some (clear_ignore_loop next)
    | None => None
    end.

(** The first statement of print_context_script: the script as it is once
    the [ignore] flags are set. *)
Definition set_ignore_flags (script : option change) : option change :=
  if ignore_blank_lines || fastmap ignore_regexp then mark_ignorable script
  else
    match script with
    | Some e => Some (clear_ignore_loop e)
    | None => None
    end.

Definition print_context_script (script : option change) (unidiff : bool)
    (st : state) : outcome state :=
  let script := set_ignore_flags script in
  let st := set_last_search st (- prefix_lines (files 0%nat)) in
  let st := set_last_match st LIN_MAX in
  if unidiff then print_script script find_hunk pr_unidiff_hunk st
  else print_script script find_hunk pr_context_hunk st.

(** ** Vocabulary of the statements *)

(** The changes of a chain, in order; each one carries the rest of the chain
    in its [link]. *)
Fixpoint changes_from (c : change) : list change :=
  c :: match link c with
       | Some next => changes_from next
       | None => []
       end.

Definition changes_of (script : option change) : list change :=
  match script with Some c => changes_from c | None => [] end.

(** The fields of a change that the output routines never write. *)
Definition edit_of (c : change) : lin * lin * lin * lin :=
  (line0 c, deleted c, line1 c, inserted c).

(** A change detached from the others. *)
Definition detached (c : change) : change := set_link c None.

(** The kind of changes [analyze_hunk] reports for a hunk. *)
Definition hunk_kind (hunk : change) : changes :=
  let '(kind, _, _, _, _) := analyze_hunk hunk in kind.

(** The unchanged lines between the end of [prev] and the start of [next],
    counted in file 0 and in file 1. *)
Definition gap0 (prev next : change) : lin :=
  line0 next - (line0 prev + deleted prev).

Definition gap1 (prev next : change) : lin :=
  line1 next - (line1 prev + inserted prev).

(** The threshold that decides whether [next] joins the hunk. *)
Definition threshold (next : change) : lin :=
  if ignore next then context else 2 * context + 1.

(** The last change of the maximal run that starts at [start] and takes in
    the successor exactly when its file-0 gap is below the threshold. *)
Fixpoint run_end (start : change) : change :=
  match link start with
  | Some next =>
      if gap0 start next <? threshold next then run_end next else start
  | None => start
  end.

(** [examines start prev next]: the walk of find_hunk from [start] reaches
    the adjacent pair [prev], [next] and tests it. *)
Inductive examines : change -> change -> change -> Prop :=
| examines_first start next :
    link start = Some next -> examines start start next
| examines_later start succ prev next :
    link start = Some succ ->
    gap0 start succ = gap1 start succ ->
    gap0 start succ < threshold succ ->
    examines succ prev next ->
    examines start prev next.

(** Every adjacent pair of the chain has the same gap in both files. *)
Fixpoint equal_gaps (c : change) : Prop :=
  match link c with
  | Some next => gap0 c next = gap1 c next /\ equal_gaps next
  | None => True
  end.

(** Every change of the hunk lies inside the window
    [first0, last0] x [first1, last1]. *)
Fixpoint inside_window (first0 last0 first1 last1 : lin) (c : change) : Prop :=
  (first0 <= line0 c /\ line0 c + deleted c - 1 <= last0)
  /\ (first1 <= line1 c /\ line1 c + inserted c - 1 <= last1)
  /\ match link c with
     | Some next => inside_window first0 last0 first1 last1 next
     | None => True
     end.

(** The counts of every change are non-negative and successive changes do
    not overlap in file 0. *)
Fixpoint well_formed (c : change) : Prop :=
  0 <= deleted c /\ 0 <= inserted c
  /\ match link c with
     | Some next => line0 c + deleted c <= line0 next /\ well_formed next
     | None => True
     end.

(** The lines a hunk deletes and inserts. *)
Fixpoint total_deleted (c : change) : lin :=
  deleted c + match link c with Some next => total_deleted next | None => 0 end.

Fixpoint total_inserted (c : change) : lin :=
  inserted c + match link c with Some next => total_inserted next | None => 0 end.

(** The label of a function line as the format describes it: skip leading
    white space up to a newline, take at most 40 bytes up to the first
    newline, trim white space on the right. *)
Fixpoint drop_leading_space (l : list ascii) : list ascii :=
  match l with
  | c :: l' =>
      if c_isspace c && negb (c =? newline)%char then drop_leading_space l' else l
  | [] => []
  end.

Fixpoint up_to_newline (l : list ascii) : list ascii :=
  match l with
  | c :: l' => if (c =? newline)%char then [] else c :: up_to_newline l'
  | [] => []
  end.

Fixpoint trim_right (l : list ascii) : list ascii :=
  match l with
  | c :: l' =>
      match trim_right l' with
      | [] => if c_isspace c then [] else [c]
      | t => c :: t
      end
  | [] => []
  end.

Definition function_label (line : list ascii) : list ascii :=
  trim_right (firstn 40 (up_to_newline (drop_leading_space line))).

(** The time of a header line as the format describes it: the modification
    time formatted with [time_format], or, when [localtime] or [nstrftime]
    fails, the seconds, a dot and the nanoseconds in decimal. *)
Definition header_time (inf : file_data) : string :=
  let sec := st_mtime (file_stat inf) in
  let nsec := st_mtime_nsec (file_stat inf) in
  match localtime sec with
  | Some t =>
      if fst (nstrftime time_format t 0 nsec) =? 0
      then fmt_d sec ++ "." ++ fmt_prec_d 9 nsec
      else snd (nstrftime time_format t 0 nsec)
  | None => fmt_d sec ++ "." ++ fmt_prec_d 9 nsec
  end.

(** A header line: the mark, a space, and the label if there is one, the
    name, a tab and the time otherwise. *)
Definition header_line (mark : string) (inf : file_data) (name : string)
    (label : option string) : string :=
  mark ++ " "
  ++ match label with
     | Some label => label ++ NL
     | None => name ++ TAB ++ header_time inf ++ NL
     end.

(** ** analyze_hunk *)

(** Modelled from the spec: analyze_hunk is defined in util.c, which is not
    among the sources; only its declaration in diff.h is.  A line is blank
    when it consists solely of white space up to its newline. *)
Fixpoint blank_line (mem : list ascii) : bool :=
  match mem with
  | c :: mem' =>
      if (c =? newline)%char then true else c_isspace c && blank_line mem'
  | [] => false
  end.

(** Modelled from the spec: whether line [i] of [file] is ignorable: it is
    blank and [ignore_blank_lines] is on, or [ignore_regexp] is present and
    matches the line. *)
Definition ignorable_line (file : file_data) (i : lin) : bool :=
  let line := linbuf file i in
  let len := linbuf file (i + 1) - line - 1 in
  (ignore_blank_lines && blank_line (mem_at line))
  || (fastmap ignore_regexp
      && (0 <=? re_search ignore_regexp
                  (firstn (Z.to_nat len) (mem_at line)) len 0 len)).

(** Modelled from the spec: the [n] lines of [file] from line [i] on are
    all ignorable. *)
Fixpoint ignorable_lines (file : file_data) (n : nat) (i : lin) : bool :=
  match n with
  | O => true
  | S n' => ignorable_line file i && ignorable_lines file n' (i + 1)
  end.

(** Modelled from the spec: every change of the run has [ignore] set and
    all its lines in file 0 and in file 1 are ignorable. *)
Fixpoint ignorable_run (c : change) : bool :=
  ignore c
  && ignorable_lines (files 0%nat) (Z.to_nat (deleted c)) (line0 c)
  && ignorable_lines (files 1%nat) (Z.to_nat (inserted c)) (line1 c)
  && match link c with
     | Some next => ignorable_run next
     | None => true
     end.

(** The last change of a run. *)
Fixpoint last_change (c : change) : change :=
  match link c with
  | Some next => last_change next
  | None => c
  end.

(** Modelled from the spec: analyze_hunk of util.c, which is not among the
    sources.  [first0] and [first1] are the lines of the first change,
    [last0] and [last1] end the last change, and the kind is UNCHANGED for
    an ignorable run, else OLD for deletions only, NEW for insertions only
    and CHANGED for both. *)
Definition spec_analyze_hunk (start : change)
  : changes * lin * lin * lin * lin :=
  let last := last_change start in
  let kind :=
    if ignorable_run start then UNCHANGED
    else
      match total_deleted start =? 0, total_inserted start =? 0 with
      | false, true => OLD
      | true, false => NEW
      | false, false => CHANGED
      | true, true => UNCHANGED
      end in
  (kind, line0 start, line0 last + deleted last - 1,
   line1 start, line1 last + inserted last - 1).

(** ** Properties *)

(** Induction along a chain of changes. *)
Lemma change_chain_ind (P : change -> Prop) :
  (forall c, link c = None -> P c) ->
  (forall c next, link c = Some next -> P next -> P c) ->
  forall c, P c.
Proof.
  intros Hlast Hstep. fix IH 1. intros c.
  destruct (link c) as [next|] eqn:E.
  - exact (Hstep c next E (IH next)).
  - exact (Hlast c E).
Qed.

Lemma outfile_fputs s st : outfile (fputs s st) = outfile st ++ s.
Proof. reflexivity. Qed.

(** *** The range printers *)

(** C1.  With [(ta, tb)] the translation of the internal pair [(a, b)] for
    the file, the context-style printer appends exactly [tb] when
    [tb <= ta] and [ta,tb] otherwise, and the unified-style printer appends
    exactly [tb,0] when [tb < ta], [tb] when [tb = ta] and
    [ta,tb-ta+1] when [tb > ta]; neither touches anything but [outfile]. *)
Theorem number_ranges_rendering (file : file_data) (a b : lin) (st : state) :
  let ta := fst (translate_range file a b) in
  let tb := snd (translate_range file a b) in
  print_context_number_range file a b st
  = fputs (if (tb <=? ta)%Z then fmt_d tb else fmt_d ta ++ "," ++ fmt_d tb) st
  /\ print_unidiff_number_range file a b st
     = fputs match (tb ?= ta)%Z with
             | Lt => fmt_d tb ++ ",0"
             | Eq => fmt_d tb
             | Gt => fmt_d ta ++ "," ++ fmt_d (tb - ta + 1)
             end st.
Proof.
  unfold print_context_number_range, print_unidiff_number_range.
  destruct (translate_range file a b) as [ta tb]; simpl.
  split; [destruct (tb <=? ta); reflexivity|].
  destruct (Z.compare_spec tb ta) as [E|L|G].
  - subst. rewrite Z.leb_refl, Z.ltb_irrefl. reflexivity.
  - rewrite (proj2 (Z.leb_le tb ta)) by lia.
    rewrite (proj2 (Z.ltb_lt tb ta)) by lia. reflexivity.
  - rewrite (proj2 (Z.leb_gt tb ta)) by lia. reflexivity.
Qed.

(** *** find_hunk *)

Lemma find_hunk_unfold (start : change) :
  find_hunk start
  = match link start with
    | None => Returned start
    | Some next =>
        if negb (gap0 start next =? gap1 start next) then Aborted
        else if gap0 start next <? threshold next then find_hunk next
             else Returned start
    end.
Proof. destruct start as [[next|] ? ? ? ? ?]; reflexivity. Qed.

Lemma run_end_unfold (start : change) :
  run_end start
  = match link start with
    | Some next =>
        if gap0 start next <? threshold next then run_end next else start
    | None => start
    end.
Proof. destruct start as [[next|] ? ? ? ? ?]; reflexivity. Qed.

Lemma equal_gaps_unfold (c : change) :
  equal_gaps c
  = match link c with
    | Some next => gap0 c next = gap1 c next /\ equal_gaps next
    | None => True
    end.
Proof. destruct c as [[next|] ? ? ? ? ?]; reflexivity. Qed.

(** C2, amended.  When every adjacent pair that find_hunk examines has the
    same gap in both files, find_hunk returns the last change of the maximal
    run: the successor is taken in exactly when its file-0 gap is strictly
    below the threshold ([context] for a successor with [ignore] set,
    [2 * context + 1] otherwise), the walk stops at the end of the chain,
    and a single change is returned as it is. *)
Theorem find_hunk_returns_run_end (start : change) :
  (forall prev next, examines start prev next -> gap0 prev next = gap1 prev next) ->
  find_hunk start = Returned (run_end start).
Proof.
  induction start as [c E | c next E IH] using change_chain_ind; intros H.
  - rewrite find_hunk_unfold, run_end_unfold, E. reflexivity.
  - rewrite find_hunk_unfold, run_end_unfold, E.
    pose proof (H c next (examines_first c next E)) as G.
    rewrite (proj2 (Z.eqb_eq _ _) G). simpl.
    destruct (gap0 c next <? threshold next) eqn:T; [|reflexivity].
    apply IH. intros p n Hpn. apply H.
    apply (examines_later c next p n E G); [apply Z.ltb_lt; exact T | exact Hpn].
Qed.

(** C3.  When every adjacent pair of the script has equal gaps in the two
    files, find_hunk returns and never reaches [abort ()]; and whenever it
    examines an adjacent pair whose gaps differ, it aborts. *)
Theorem find_hunk_aborts_on_unequal_gaps_only (start : change) :
  (equal_gaps start -> exists last, find_hunk start = Returned last)
  /\ (forall prev next,
        examines start prev next -> gap0 prev next <> gap1 prev next ->
        find_hunk start = Aborted).
Proof.
  split.
  - induction start as [c E | c next E IH] using change_chain_ind; intros H.
    + rewrite find_hunk_unfold, E. eexists; reflexivity.
    + rewrite find_hunk_unfold, E. rewrite equal_gaps_unfold, E in H.
      destruct H as [G H]. rewrite (proj2 (Z.eqb_eq _ _) G). simpl.
      destruct (gap0 c next <? threshold next); [apply IH; exact H|].
      eexists; reflexivity.
  - intros prev next Hex. induction Hex as [c n E | c s p n E G T Hex IH]; intros D.
    + rewrite find_hunk_unfold, E.
      rewrite (proj2 (Z.eqb_neq _ _) D). reflexivity.
    + rewrite find_hunk_unfold, E.
      rewrite (proj2 (Z.eqb_eq _ _) G). simpl.
      rewrite (proj2 (Z.ltb_lt _ _) T). apply IH. exact D.
Qed.

(** *** The interleaving loop of pr_unidiff_hunk *)

Lemma unidiff_loop_eq last0 last1 i j next st :
  unidiff_loop last0 last1 i j next st
  = if (i <=? last0) || (j <=? last1) then
      match next with
      | None =>
          unidiff_loop last0 last1 (i + 1) (j + 1) None (unidiff_context_line i st)
      | Some c =>
          if i <? line0 c
          then unidiff_loop last0 last1 (i + 1) (j + 1) (Some c)
                 (unidiff_context_line i st)
          else
            let '(i', j', st') := unidiff_change_lines c i j st in
            unidiff_loop last0 last1 i' j' (link c) st'
      end
    else (i, j, st).
Proof.
  etransitivity; [apply unidiff_loop_equation_1|].
  destruct (Sumbool.sumbool_of_bool ((i <=? last0) || (j <=? last1))) as [e|e];
    simpl; symmetry; (etransitivity; [rewrite e; reflexivity|]); symmetry.
  - destruct next as [c|]; simpl.
    + destruct (Z_lt_dec i (line0 c)) as [l|n]; simpl.
      * rewrite (proj2 (Z.ltb_lt _ _) l). reflexivity.
      * rewrite (proj2 (Z.ltb_ge _ _)) by lia.
        destruct (unidiff_change_lines c i j st) as [[i' j'] st']. reflexivity.
    + reflexivity.
  - reflexivity.
Qed.

Lemma well_formed_unfold (c : change) :
  well_formed c
  = (0 <= deleted c /\ 0 <= inserted c
     /\ match link c with
        | Some next => line0 c + deleted c <= line0 next /\ well_formed next
        | None => True
        end).
Proof. destruct c as [[next|] ? ? ? ? ?]; reflexivity. Qed.

Lemma inside_window_unfold first0 last0 first1 last1 (c : change) :
  inside_window first0 last0 first1 last1 c
  = ((first0 <= line0 c /\ line0 c + deleted c - 1 <= last0)
     /\ (first1 <= line1 c /\ line1 c + inserted c - 1 <= last1)
     /\ match link c with
        | Some next => inside_window first0 last0 first1 last1 next
        | None => True
        end).
Proof. destruct c as [[next|] ? ? ? ? ?]; reflexivity. Qed.

Lemma total_deleted_unfold (c : change) :
  total_deleted c
  = deleted c + match link c with Some next => total_deleted next | None => 0 end.
Proof. destruct c as [[next|] ? ? ? ? ?]; reflexivity. Qed.

Lemma total_inserted_unfold (c : change) :
  total_inserted c
  = inserted c + match link c with Some next => total_inserted next | None => 0 end.
Proof. destruct c as [[next|] ? ? ? ? ?]; reflexivity. Qed.

(** A well-formed hunk inside the window deletes no more lines than the
    window holds from its first change on. *)
Lemma total_deleted_bounds first0 last0 first1 last1 (c : change) :
  well_formed c -> inside_window first0 last0 first1 last1 c ->
  0 <= total_deleted c <= last0 + 1 - line0 c /\ 0 <= total_inserted c.
Proof.
  induction c as [c E | c next E IH] using change_chain_ind;
    rewrite well_formed_unfold, inside_window_unfold, total_deleted_unfold,
      total_inserted_unfold, E.
  - lia.
  - intros (Hd & Hi & Ho & Hw) (H0 & H1 & Hin).
    specialize (IH Hw Hin). lia.
Qed.

(** Once the changes are used up, the loop copies context until both
    cursors leave the window. *)
Lemma unidiff_loop_tail last0 last1 (n : nat) :
  forall i j st,
    Z.of_nat n = last0 + 1 - i -> last0 - i = last1 - j ->
    fst (unidiff_loop last0 last1 i j None st) = (last0 + 1, last1 + 1).
Proof.
  induction n as [|n IH]; intros i j st Hn Hb; rewrite unidiff_loop_eq.
  - rewrite (proj2 (Z.leb_gt i last0)), (proj2 (Z.leb_gt j last1)) by lia.
    simpl. f_equal; lia.
  - rewrite (proj2 (Z.leb_le i last0)) by lia. simpl.
    apply IH; lia.
Qed.

Lemma unidiff_loop_cursors first0 last0 first1 last1 (c : change) :
  well_formed c -> inside_window first0 last0 first1 last1 c ->
  forall (n : nat) i j st,
    Z.of_nat n = line0 c - i ->
    (last0 + 1 - i) - total_deleted c = (last1 + 1 - j) - total_inserted c ->
    fst (unidiff_loop last0 last1 i j (Some c) st) = (last0 + 1, last1 + 1).
Proof.
  induction c as [c E | c next E IH] using change_chain_ind;
    intros Hw Hin;
    pose proof (total_deleted_bounds _ _ _ _ c Hw Hin) as Hb;
    revert Hw Hin Hb;
    rewrite well_formed_unfold, inside_window_unfold, total_deleted_unfold,
      total_inserted_unfold, E;
    intros Hw Hin Hb;
    induction n as [|n IHn]; intros i j st Hn Hbal; rewrite unidiff_loop_eq.
  - (* the last change, reached *)
    destruct ((i <=? last0) || (j <=? last1)) eqn:C.
    + rewrite (proj2 (Z.ltb_ge i (line0 c))) by lia.
      pose proof (unidiff_change_lines_cursors c i j st) as [Hi Hj].
      destruct (unidiff_change_lines c i j st) as [[i' j'] st']. simpl in Hi, Hj.
      rewrite E. apply (unidiff_loop_tail _ _ (Z.to_nat (last0 + 1 - i'))); lia.
    + apply orb_false_iff in C. rewrite !Z.leb_gt in C. simpl. f_equal; lia.
  - (* context before the last change *)
    rewrite (proj2 (Z.leb_le i last0)) by lia. simpl.
    rewrite (proj2 (Z.ltb_lt i (line0 c))) by lia.
    apply IHn; lia.
  - (* a change followed by others, reached *)
    destruct Hw as (Hd & Hi' & Ho & Hw). destruct Hin as (H0 & H1 & Hin).
    pose proof (total_deleted_bounds _ _ _ _ next Hw Hin) as Hbn.
    destruct ((i <=? last0) || (j <=? last1)) eqn:C.
    + rewrite (proj2 (Z.ltb_ge i (line0 c))) by lia.
      pose proof (unidiff_change_lines_cursors c i j st) as [Hi Hj].
      destruct (unidiff_change_lines c i j st) as [[i' j'] st']. simpl in Hi, Hj.
      rewrite E. apply (IH Hw Hin (Z.to_nat (line0 next - i'))); lia.
    + apply orb_false_iff in C. rewrite !Z.leb_gt in C. simpl. f_equal; lia.
  - destruct Hw as (Hd & Hi' & Ho & Hw). destruct Hin as (H0 & H1 & Hin).
    pose proof (total_deleted_bounds _ _ _ _ next Hw Hin) as Hbn.
    rewrite (proj2 (Z.leb_le i last0)) by lia. simpl.
    rewrite (proj2 (Z.ltb_lt i (line0 c))) by lia.
    apply IHn; lia.
Qed.

(** C4, amended.  For every hunk of well-formed changes (non-negative
    counts, successive changes not overlapping) that all lie inside the
    expanded window [first0, last0] x [first1, last1], satisfy the
    equal-gap invariant, and whose window holds as many unchanged lines in
    file 0 as in file 1, the interleaving loop ends with cursor [i] at
    [last0 + 1] and cursor [j] at [last1 + 1]. *)
Theorem unidiff_loop_final_cursors first0 last0 first1 last1 (hunk : change)
    (st : state) :
  well_formed hunk ->
  inside_window first0 last0 first1 last1 hunk ->
  equal_gaps hunk ->
  (last0 - first0 + 1) - total_deleted hunk
  = (last1 - first1 + 1) - total_inserted hunk ->
  fst (unidiff_loop last0 last1 first0 first1 (Some hunk) st)
  = (last0 + 1, last1 + 1).
Proof.
  intros Hw Hin _ Hbal.
  apply (unidiff_loop_cursors first0 last0 first1 last1 hunk Hw Hin
           (Z.to_nat (line0 hunk - first0))).
  - rewrite inside_window_unfold in Hin. lia.
  - lia.
Qed.

(** *** Marking the changes, and hunks without changes *)

Lemma changes_is_zero_unchanged (k : changes) :
  changes_is_zero k = match k with UNCHANGED => true | _ => false end.
Proof. destruct k; reflexivity. Qed.

Lemma mark_ignorable_loop_unfold (c : change) :
  mark_ignorable_loop c
  = Build_change
      match link c with
      | Some next => Some (mark_ignorable_loop next)
      | None => None
      end
      (inserted c) (deleted c) (line0 c) (line1 c)
      (changes_is_zero (hunk_kind (detached c))).
Proof.
  destruct c as [[next|] ins del l0 l1 ig];
    unfold hunk_kind, detached; simpl;
    destruct (analyze_hunk _) as [[[[k ?] ?] ?] ?]; reflexivity.
Qed.

Lemma clear_ignore_loop_unfold (c : change) :
  clear_ignore_loop c
  = Build_change
      match link c with
      | Some next => Some (clear_ignore_loop next)
      | None => None
      end
      (inserted c) (deleted c) (line0 c) (line1 c) false.
Proof. destruct c as [[next|] ? ? ? ? ?]; reflexivity. Qed.

Lemma changes_from_unfold (c : change) :
  changes_from c
  = c :: match link c with Some next => changes_from next | None => [] end.
Proof. destruct c as [[next|] ? ? ? ? ?]; reflexivity. Qed.

Lemma mark_ignorable_loop_changes (c : change) :
  map edit_of (changes_from (mark_ignorable_loop c)) = map edit_of (changes_from c)
  /\ map ignore (changes_from (mark_ignorable_loop c))
     = map (fun c => changes_is_zero (hunk_kind (detached c))) (changes_from c).
Proof.
  induction c as [c E | c next E [IH1 IH2]] using change_chain_ind;
    rewrite (changes_from_unfold c), (changes_from_unfold (mark_ignorable_loop c)),
      mark_ignorable_loop_unfold, E; simpl.
  - split; reflexivity.
  - rewrite IH1, IH2. split; reflexivity.
Qed.

Lemma clear_ignore_loop_changes (c : change) :
  map edit_of (changes_from (clear_ignore_loop c)) = map edit_of (changes_from c)
  /\ map ignore (changes_from (clear_ignore_loop c))
     = map (fun _ => false) (changes_from c).
Proof.
  induction c as [c E | c next E [IH1 IH2]] using change_chain_ind;
    rewrite (changes_from_unfold c), (changes_from_unfold (clear_ignore_loop c)),
      clear_ignore_loop_unfold, E; simpl.
  - split; reflexivity.
  - rewrite IH1, IH2. split; reflexivity.
Qed.

(** C5.  print_context_script marks every change before it hands the
    script to print_script, and writes nothing before: the hunks are found
    and printed on the marked script, with the cursors of find_function
    reset.  The marked script has the changes of the script, links
    restored; when [ignore_blank_lines] is off and no ignore regexp is
    present every [ignore] flag is false, otherwise the flag of a change is
    set exactly when analyze_hunk of that change alone, its link nulled,
    yields UNCHANGED. *)
Theorem print_context_script_marks_first (script : option change)
    (unidiff : bool) (st : state) :
  let marked := set_ignore_flags script in
  print_context_script script unidiff st
  = print_script marked find_hunk
      (if unidiff then pr_unidiff_hunk else pr_context_hunk)
      (Build_state (outfile st) (util st) (- prefix_lines (files 0%nat)) LIN_MAX)
  /\ map edit_of (changes_of marked) = map edit_of (changes_of script)
  /\ map ignore (changes_of marked)
     = map (fun c =>
              if ignore_blank_lines || fastmap ignore_regexp
              then match hunk_kind (set_link c None) with
                   | UNCHANGED => true
                   | _ => false
                   end
              else false)
         (changes_of script).
Proof.
  simpl. split; [|].
  - unfold print_context_script. destruct unidiff; reflexivity.
  - unfold set_ignore_flags.
    destruct (ignore_blank_lines || fastmap ignore_regexp);
      destruct script as [c|]; simpl; try (split; reflexivity).
    + destruct (mark_ignorable_loop_changes c) as [H1 H2]. split; [exact H1|].
      rewrite H2. apply map_ext. intros a. apply changes_is_zero_unchanged.
    + apply clear_ignore_loop_changes.
Qed.

(** C6.  For a hunk that analyze_hunk reports as UNCHANGED, the context
    emitter and the unified emitter both return at once: the output stream,
    and the rest of the state, are as before the call. *)
Theorem unchanged_hunk_prints_nothing (hunk : change) (st : state) :
  hunk_kind hunk = UNCHANGED ->
  pr_context_hunk hunk st = st /\ pr_unidiff_hunk hunk st = st.
Proof.
  unfold hunk_kind, pr_context_hunk, pr_unidiff_hunk.
  destruct (analyze_hunk hunk) as [[[[k f0] l0] f1] l1].
  intros ->. split; reflexivity.
Qed.

(** Marking twice gives what marking once gives, as soon as the verdict of
    analyze_hunk on a change alone does not change when its [ignore] flag is
    set to that verdict. *)
Lemma mark_ignorable_loop_twice :
  (forall c, link c = None ->
     changes_is_zero (hunk_kind (set_ignore c (changes_is_zero (hunk_kind c))))
     = changes_is_zero (hunk_kind c)) ->
  forall c, mark_ignorable_loop (mark_ignorable_loop c) = mark_ignorable_loop c.
Proof.
  intros Hstable.
  induction c as [c E | c next E IH] using change_chain_ind;
    rewrite (mark_ignorable_loop_unfold (mark_ignorable_loop c));
    rewrite !(mark_ignorable_loop_unfold c); rewrite E; simpl;
    pose proof (Hstable (detached c) eq_refl) as Hs;
    unfold detached, set_link, set_ignore in *; simpl in *; rewrite Hs.
  - reflexivity.
  - rewrite IH. reflexivity.
Qed.

Lemma clear_ignore_loop_twice (c : change) :
  clear_ignore_loop (clear_ignore_loop c) = clear_ignore_loop c.
Proof.
  induction c as [c E | c next E IH] using change_chain_ind;
    rewrite (clear_ignore_loop_unfold (clear_ignore_loop c));
    rewrite !(clear_ignore_loop_unfold c); rewrite E; simpl.
  - reflexivity.
  - rewrite IH. reflexivity.
Qed.

Lemma set_ignore_flags_twice :
  (forall c, link c = None ->
     changes_is_zero (hunk_kind (set_ignore c (changes_is_zero (hunk_kind c))))
     = changes_is_zero (hunk_kind c)) ->
  forall script,
    set_ignore_flags (set_ignore_flags script) = set_ignore_flags script.
Proof.
  intros Hstable script. unfold set_ignore_flags.
  destruct (ignore_blank_lines || fastmap ignore_regexp);
    destruct script as [c|]; simpl; try reflexivity.
  - rewrite (mark_ignorable_loop_twice Hstable). reflexivity.
  - rewrite clear_ignore_loop_twice. reflexivity.
Qed.

(** *** print_context_function *)

Lemma skip_leading_space_shift (mem : list ascii) (k : nat) :
  skip_leading_space mem k = (k + skip_leading_space mem 0)%nat.
Proof.
  revert k; induction mem as [|c mem IH]; intros k; simpl.
  - lia.
  - destruct (c_isspace c && negb (c =? newline)%char); [|lia].
    rewrite (IH (S k)), (IH 1%nat). lia.
Qed.

Lemma skipn_skip_leading_space (mem : list ascii) :
  skipn (skip_leading_space mem 0) mem = drop_leading_space mem.
Proof.
  induction mem as [|c mem IH]; simpl; [reflexivity|].
  destruct (c_isspace c && negb (c =? newline)%char); [|reflexivity].
  rewrite skip_leading_space_shift. simpl. exact IH.
Qed.

Lemma skip_leading_space_le (mem : list ascii) :
  (skip_leading_space mem 0 <= List.length mem)%nat.
Proof.
  induction mem as [|c mem IH]; simpl; [lia|].
  destruct (c_isspace c && negb (c =? newline)%char); [|lia].
  rewrite skip_leading_space_shift. lia.
Qed.

(** The scan stops after the bytes of [firstn m (up_to_newline mem)]. *)
Lemma scan_label_spec (mem : list ascii) :
  forall i j m, (j + m = i + 40)%nat ->
    scan_label mem i j = (j + List.length (firstn m (up_to_newline mem)))%nat
    /\ firstn (List.length (firstn m (up_to_newline mem))) mem
       = firstn m (up_to_newline mem).
Proof.
  induction mem as [|c mem IH]; intros i j m Hm; simpl.
  - rewrite firstn_nil. simpl. split; [lia|reflexivity].
  - destruct m as [|m].
    + rewrite (proj2 (Nat.ltb_ge j (i + 40))) by lia. simpl. split; [lia|reflexivity].
    + rewrite (proj2 (Nat.ltb_lt j (i + 40))) by lia. simpl.
      destruct (c =? newline)%char; simpl; [split; [lia|reflexivity]|].
      destruct (IH i (S j) m ltac:(lia)) as [H1 H2].
      rewrite H1, H2. split; [lia|reflexivity].
Qed.

Lemma trim_right_app (l : list ascii) (c : ascii) :
  trim_right (l ++ [c])%list = if c_isspace c then trim_right l else (l ++ [c])%list.
Proof.
  induction l as [|a l IH]; simpl.
  - destruct (c_isspace c); reflexivity.
  - rewrite IH. destruct (c_isspace c) eqn:E.
    + reflexivity.
    + destruct (l ++ [c])%list eqn:El; [destruct l; discriminate|reflexivity].
Qed.

Lemma firstn_skipn_snoc (f : list ascii) (i k : nat) :
  (i + k < List.length f)%nat ->
  firstn (S k) (skipn i f) = (firstn k (skipn i f) ++ [nth (i + k) f newline])%list.
Proof.
  revert i k; induction f as [|a f IH]; intros i k H; simpl in H; [lia|].
  destruct i as [|i].
  - simpl. destruct k as [|k]; [reflexivity|].
    simpl. f_equal. apply (IH 0%nat k). lia.
  - simpl. apply IH. lia.
Qed.

(** Trimming by moving [j] back is trimming the bytes [i .. j) on the right. *)
Lemma trim_label_spec (f : list ascii) (i : nat) :
  forall k, (i + k <= List.length f)%nat ->
    firstn (trim_label f i (i + k) - i) (skipn i f)
    = trim_right (firstn k (skipn i f)).
Proof.
  induction k as [|k IH]; intros H.
  - rewrite Nat.add_0_r. destruct i; simpl.
    + reflexivity.
    + rewrite (proj2 (Nat.ltb_ge (S i) (S i))) by lia. simpl.
      rewrite Nat.sub_diag. reflexivity.
  - replace (i + S k)%nat with (S (i + k)) by lia. simpl trim_label.
    rewrite (proj2 (Nat.ltb_lt i (S (i + k)))) by lia. simpl andb.
    rewrite firstn_skipn_snoc by lia. rewrite trim_right_app.
    destruct (c_isspace (nth (i + k) f newline)).
    + apply IH. lia.
    + replace (S (i + k) - i)%nat with (S k) by lia.
      apply firstn_skipn_snoc. lia.
Qed.

Lemma up_to_newline_le (l : list ascii) :
  (List.length (up_to_newline l) <= List.length l)%nat.
Proof.
  induction l as [|c l IH]; simpl; [lia|].
  destruct (c =? newline)%char; simpl; lia.
Qed.

Lemma up_to_newline_no_newline (l : list ascii) : ~ In newline (up_to_newline l).
Proof.
  induction l as [|c l IH]; simpl; [intros []|].
  destruct (c =? newline)%char eqn:E; simpl; [intros []|].
  intros [H|H]; [|exact (IH H)]. subst. rewrite Ascii.eqb_refl in E. discriminate.
Qed.

Lemma trim_right_incl (l : list ascii) (c : ascii) :
  In c (trim_right l) -> In c l.
Proof.
  induction l as [|a l IH]; simpl; [intros []|].
  destruct (trim_right l) as [|t ts].
  - destruct (c_isspace a); simpl; [intros []|intros [H|[]]; left; exact H].
  - simpl. intros [H|H]; [left; exact H|]. right. apply IH. exact H.
Qed.

Lemma trim_right_length (l : list ascii) :
  (List.length (trim_right l) <= List.length l)%nat.
Proof.
  induction l as [|a l IH]; simpl; [lia|].
  destruct (trim_right l) as [|t ts].
  - destruct (c_isspace a); simpl; lia.
  - simpl in *. lia.
Qed.

Lemma trim_right_last (l : list ascii) :
  forall l' c, trim_right l = (l' ++ [c])%list -> c_isspace c = false.
Proof.
  induction l as [|a l IH]; simpl; intros l' c H.
  - destruct l'; discriminate.
  - destruct (trim_right l) as [|t ts] eqn:E.
    + destruct (c_isspace a) eqn:Ea.
      * destruct l'; discriminate.
      * destruct l' as [|b l']; [injection H as <-; exact Ea|].
        destruct l'; discriminate.
    + destruct l' as [|b l'].
      * discriminate.
      * injection H as _ H. apply (IH l' c). exact H.
Qed.

Lemma print_context_function_bytes (function : list ascii) (st : state) :
  print_context_function function st
  = fwrite (function_label function) (putc " " st).
Proof.
  unfold print_context_function, function_label.
  pose proof (skipn_skip_leading_space function) as Hs.
  pose proof (skip_leading_space_le function) as Hle.
  generalize dependent (skip_leading_space function 0). intros i Hs Hle.
  destruct (scan_label_spec (skipn i function) i i 40 eq_refl) as [Hj Hf].
  rewrite Hj. rewrite Hs in Hf. rewrite Hs.
  assert (Hk : (i + List.length (firstn 40 (up_to_newline (drop_leading_space function)))
                <= List.length function)%nat).
  { rewrite length_firstn.
    pose proof (up_to_newline_le (drop_leading_space function)) as H.
    rewrite <- Hs in H at 2. rewrite length_skipn in H. lia. }
  pose proof (trim_label_spec function i _ Hk) as Ht.
  rewrite Hs in Ht. rewrite Ht, Hf. reflexivity.
Qed.

(** C7.  For a function-header line, the label printer writes one space and
    then the label: the bytes found by skipping leading white space (up to a
    newline), taking at most 40 bytes up to the first newline and trimming
    white space on the right.  The label is at most 40 bytes long, holds no
    newline and does not end in white space. *)
Theorem print_context_function_label (function : list ascii) (st : state) :
  In newline function ->
  let label := function_label function in
  print_context_function function st = fwrite label (putc " " st)
  /\ (List.length label <= 40)%nat
  /\ ~ In newline label
  /\ (forall l c, label = (l ++ [c])%list -> c_isspace c = false).
Proof.
  intros _ label. split; [apply print_context_function_bytes|].
  subst label. unfold function_label. split; [|split].
  - etransitivity; [apply trim_right_length|]. apply firstn_le_length.
  - intros H. apply trim_right_incl in H.
    apply (up_to_newline_no_newline (drop_leading_space function)).
    revert H. generalize (up_to_newline (drop_leading_space function)) 40%nat.
    intros l n. revert l; induction n as [|n IH]; intros [|a l]; simpl.
    + intros [].
    + intros [].
    + intros [].
    + intros [H'|H']; [left; exact H'|]. right. apply IH. exact H'.
  - apply trim_right_last.
Qed.

(** *** The header *)

Lemma to_signed64_id (z : Z) : - 2 ^ 63 <= z <= 2 ^ 63 - 1 -> to_signed64 z = z.
Proof. intros H. unfold to_signed64. rewrite Z.mod_small; lia. Qed.

Lemma to_unsigned64_id (z : Z) : 0 <= z <= 2 ^ 64 - 1 -> to_unsigned64 z = z.
Proof. intros H. unfold to_unsigned64. rewrite Z.mod_small; lia. Qed.

Lemma digits_from_length (fuel : nat) :
  forall n acc k, 0 <= n < 10 ^ Z.of_nat (S k) ->
    (List.length (digits_from fuel n acc) <= List.length acc + S k)%nat.
Proof.
  induction fuel as [|fuel IH]; intros n acc k Hn; simpl digits_from; [lia|].
  destruct (n / 10 =? 0) eqn:E.
  - simpl. lia.
  - apply Z.eqb_neq in E.
    destruct k as [|k].
    + exfalso. apply E. apply Z.div_small. change (10 ^ Z.of_nat 1) with 10 in Hn. lia.
    + etransitivity; [apply (IH (n / 10) _ k)|simpl; lia].
      rewrite Nat2Z.inj_succ, Z.pow_succ_r in Hn by lia.
      split; [apply Z.div_pos; lia|].
      apply Z.div_lt_upper_bound; lia.
Qed.

Lemma length_string_of_list_ascii (l : list ascii) :
  String.length (string_of_list_ascii l) = List.length l.
Proof. induction l as [|c l IH]; simpl; [reflexivity|]. rewrite IH. reflexivity. Qed.

(** ["%.9d"] of a count of nanoseconds is nine digits wide. *)
Lemma fmt_prec_d_nanoseconds (nsec : Z) :
  0 <= nsec < 10 ^ 9 -> String.length (fmt_prec_d 9 nsec) = 9%nat.
Proof.
  intros H. unfold fmt_prec_d.
  rewrite (proj2 (Z.ltb_ge nsec 0)) by lia.
  rewrite length_string_of_list_ascii, length_app, repeat_length.
  pose proof (digits_from_length (S (Z.to_nat (Z.log2 (Z.abs nsec)))) (Z.abs nsec) [] 8) as L.
  unfold digits.
  assert (0 <= Z.abs nsec < 10 ^ Z.of_nat 9) as Hr by (change (Z.of_nat 9) with 9; lia).
  specialize (L Hr). change (List.length (@nil ascii)) with 0%nat in L. lia.
Qed.

Lemma print_context_label_line (mark : string) (inf : file_data) (name : string)
    (label : option string) (st : state) :
  (time_t_min = 0 /\ time_t_max <= UINTMAX_MAX)
  \/ (INTMAX_MIN <= time_t_min /\ time_t_max <= INTMAX_MAX) ->
  time_t_min <= st_mtime (file_stat inf) <= time_t_max ->
  print_context_label mark inf name label st
  = fputs (header_line mark inf name label) st.
Proof.
  intros Ht Hs. unfold print_context_label, header_line, header_time, get_stat_mtime_ns.
  destruct label as [label|]; [reflexivity|].
  assert (Hfb :
    (if (LONG_MIN <=? time_t_min) && (time_t_max <=? LONG_MAX)
     then fmt_d (to_long (st_mtime (file_stat inf))) ++ "."
          ++ fmt_prec_d 9 (st_mtime_nsec (file_stat inf))
     else if time_t_max <=? INTMAX_MAX
          then fmt_d (to_intmax_t (st_mtime (file_stat inf))) ++ "."
               ++ fmt_prec_d 9 (st_mtime_nsec (file_stat inf))
          else fmt_d (to_uintmax_t (st_mtime (file_stat inf))) ++ "."
               ++ fmt_prec_d 9 (st_mtime_nsec (file_stat inf)))
    = fmt_d (st_mtime (file_stat inf)) ++ "."
      ++ fmt_prec_d 9 (st_mtime_nsec (file_stat inf))).
  { unfold LONG_MIN, LONG_MAX, INTMAX_MIN, INTMAX_MAX, UINTMAX_MAX in *.
    unfold to_long, to_intmax_t, to_uintmax_t.
    destruct ((- 2 ^ 63 <=? time_t_min) && (time_t_max <=? 2 ^ 63 - 1)) eqn:B1.
    - apply andb_true_iff in B1. rewrite !Z.leb_le in B1.
      rewrite to_signed64_id by lia. reflexivity.
    - destruct (time_t_max <=? 2 ^ 63 - 1) eqn:B2.
      + apply Z.leb_le in B2. apply andb_false_iff in B1.
        rewrite !Z.leb_gt in B1. exfalso. lia.
      + apply Z.leb_gt in B2. rewrite to_unsigned64_id by lia. reflexivity. }
  rewrite Hfb.
  destruct (localtime (st_mtime (file_stat inf))) as [t|]; [|reflexivity].
  destruct (nstrftime time_format t 0 (st_mtime_nsec (file_stat inf))) as [n buf].
  simpl. destruct (n =? 0); reflexivity.
Qed.

(** C9.  Each side of the header is the mark of the style, a space, and
    then the label if one is given for that side, put in place of the name,
    the tab and the time; without a label the time is the modification time
    formatted with [time_format], and when that fails it is the seconds, a
    dot and the nanoseconds in decimal, the nanoseconds nine digits wide. *)
Theorem print_context_header_lines (inf : nat -> file_data)
    (names : nat -> string) (unidiff : bool) (st : state) :
  (time_t_min = 0 /\ time_t_max <= UINTMAX_MAX)
  \/ (INTMAX_MIN <= time_t_min /\ time_t_max <= INTMAX_MAX) ->
  (forall k, time_t_min <= st_mtime (file_stat (inf k)) <= time_t_max) ->
  (forall k, 0 <= st_mtime_nsec (file_stat (inf k)) < 10 ^ 9) ->
  print_context_header inf names unidiff st
  = fputs (header_line (if unidiff then "+++" else "---")
             (inf 1%nat) (names 1%nat) (file_label 1%nat))
      (fputs (header_line (if unidiff then "---" else "***")
                (inf 0%nat) (names 0%nat) (file_label 0%nat)) st)
  /\ forall k, String.length (fmt_prec_d 9 (st_mtime_nsec (file_stat (inf k)))) = 9%nat.
Proof.
  intros Ht Hs Hn. split.
  - unfold print_context_header.
    destruct unidiff; rewrite !print_context_label_line by auto; reflexivity.
  - intros k. apply fmt_prec_d_nanoseconds. apply Hn.
Qed.

(** *** find_function *)

Lemma find_function_scan_eq (linbuf : lin -> Z) (last i : lin) :
  find_function_scan linbuf last i
  = if last <=? i - 1 then
      if function_line_matches linbuf (i - 1) then (Some (i - 1), 1%nat)
      else (fst (find_function_scan linbuf last (i - 1)),
            S (snd (find_function_scan linbuf last (i - 1))))
    else (None, 0%nat).
Proof.
  etransitivity; [apply find_function_scan_equation_1|].
  destruct (Z_le_dec last (i - 1)) as [l|n]; simpl.
  - rewrite (proj2 (Z.leb_le _ _) l).
    destruct (function_line_matches linbuf (i - 1)); reflexivity.
  - rewrite (proj2 (Z.leb_gt _ _)) by lia. reflexivity.
Qed.

(** A line the scan finds lies between the previous starting point and the
    line the search starts from, and matches. *)
Lemma find_function_scan_found (linbuf : lin -> Z) (last : lin) (n : nat) :
  forall i m, Z.of_nat n = i - last \/ (n = 0%nat /\ i <= last) ->
    fst (find_function_scan linbuf last i) = Some m ->
    last <= m < i /\ function_line_matches linbuf m = true.
Proof.
  induction n as [|n IH]; intros i m Hn; rewrite find_function_scan_eq.
  - rewrite (proj2 (Z.leb_gt last (i - 1))) by lia. discriminate.
  - rewrite (proj2 (Z.leb_le last (i - 1))) by lia.
    destruct (function_line_matches linbuf (i - 1)) eqn:M; simpl.
    + intros [= <-]. split; [lia|exact M].
    + intros H. destruct (IH (i - 1) m) as [Hr Hm]; [lia|exact H|].
      split; [lia|exact Hm].
Qed.

(** C10.  A call of find_function sets the last-search cursor to the line
    it is given, and writes the last-match cursor only when the downward
    scan finds a matching line; when the scan finds none, whether the call
    falls back on the previous match or returns NULL, the cursor is as
    before.  A second call with the same line vector and line number
    examines no line and returns what the first returned. *)
Theorem find_function_cursors (linbuf : lin -> Z) (linenum : lin) (st : state) :
  linenum <= LIN_MAX ->
  let r := find_function linbuf linenum st in
  find_function_last_search (snd r) = linenum
  /\ match fst (find_function_scan linbuf (find_function_last_search st) linenum) with
     | Some m => find_function_last_match (snd r) = m
     | None => find_function_last_match (snd r) = find_function_last_match st
     end
  /\ find_function linbuf linenum (snd r) = r
  /\ snd (find_function_scan linbuf (find_function_last_search (snd r)) linenum)
     = 0%nat.
Proof.
  intros Hmax. unfold find_function.
  assert (Hempty : find_function_scan linbuf linenum linenum = (None, 0%nat)).
  { rewrite find_function_scan_eq.
    rewrite (proj2 (Z.leb_gt linenum (linenum - 1))) by lia. reflexivity. }
  destruct (fst (find_function_scan linbuf (find_function_last_search st) linenum))
    as [m|] eqn:Hscan; simpl.
  - destruct (find_function_scan_found linbuf (find_function_last_search st)
                (Z.to_nat (linenum - find_function_last_search st)) linenum m)
      as [Hr _]; [lia|exact Hscan|].
    rewrite Hempty. simpl.
    rewrite (proj2 (Z.eqb_neq m LIN_MAX)) by lia. simpl.
    repeat split; reflexivity.
  - destruct (negb (find_function_last_match st =? LIN_MAX)) eqn:E; simpl;
      rewrite Hempty; simpl; rewrite E; repeat split; reflexivity.
Qed.

(** ** Further properties *)

(** *** The search of find_function *)

(** [nearest_function_line linbuf start i r]: [r] is the nearest line below
    [i], not below [start], that matches [function_regexp]; it is [None]
    when no such line matches. *)
Definition nearest_function_line (linbuf : lin -> Z) (start i : lin)
    (r : option lin) : Prop :=
  match r with
  | Some m =>
      start <= m < i /\ function_line_matches linbuf m = true
      /\ forall k, m < k < i -> function_line_matches linbuf k = false
  | None => forall k, start <= k < i -> function_line_matches linbuf k = false
  end.

(** The last match the cursors remember: [LIN_MAX] stands for none. *)
Definition remembered_match (st : state) : option lin :=
  if find_function_last_match st =? LIN_MAX then None
  else Some (find_function_last_match st).

(** The cursors are valid for a pass that started at line [start]: the
    remembered match is the nearest function line below the last search. *)
Definition cursors_valid (linbuf : lin -> Z) (start : lin) (st : state) : Prop :=
  start <= find_function_last_search st
  /\ nearest_function_line linbuf start (find_function_last_search st)
       (remembered_match st).

Lemma find_function_scan_finds_nearest (linbuf : lin -> Z) (last i : lin) :
  nearest_function_line linbuf last i (fst (find_function_scan linbuf last i)).
Proof.
  remember (Z.to_nat (i - last)) as n eqn:Hn. revert i Hn.
  induction n as [|n IH]; intros i Hn; rewrite find_function_scan_eq.
  - rewrite (proj2 (Z.leb_gt last (i - 1))) by lia. simpl.
    intros k Hk; lia.
  - rewrite (proj2 (Z.leb_le last (i - 1))) by lia.
    destruct (function_line_matches linbuf (i - 1)) eqn:M; simpl.
    + split; [lia|]. split; [exact M|]. intros k Hk. lia.
    + pose proof (IH (i - 1) ltac:(lia)) as Hnear.
      destruct (fst (find_function_scan linbuf last (i - 1))) as [m|]; simpl in *.
      * destruct Hnear as (Hr & Hm & Hbetween).
        split; [lia|]. split; [exact Hm|].
        intros k Hk. destruct (Z.eq_dec k (i - 1)) as [->|Hne]; [exact M|].
        apply Hbetween. lia.
      * intros k Hk.
        destruct (Z.eq_dec k (i - 1)) as [->|Hne]; [exact M|].
        apply Hnear. lia.
Qed.

(** X1.  The scan stops at the nearest matching line below [i] that is not
    below [last], having examined the lines down to it; without a match it
    has examined every line from [i - 1] down to [last]. *)
Theorem find_function_scan_nearest (linbuf : lin -> Z) (last i : lin) :
  nearest_function_line linbuf last i (fst (find_function_scan linbuf last i))
  /\ Z.of_nat (snd (find_function_scan linbuf last i))
     = match fst (find_function_scan linbuf last i) with
       | Some m => i - m
       | None => Z.max 0 (i - last)
       end.
Proof.
  split; [apply find_function_scan_finds_nearest|].
  remember (Z.to_nat (i - last)) as n eqn:Hn. revert i Hn.
  induction n as [|n IH]; intros i Hn; rewrite find_function_scan_eq.
  - rewrite (proj2 (Z.leb_gt last (i - 1))) by lia. simpl. lia.
  - rewrite (proj2 (Z.leb_le last (i - 1))) by lia.
    destruct (function_line_matches linbuf (i - 1)) eqn:M; simpl; [lia|].
    pose proof (IH (i - 1) ltac:(lia)) as Hcount.
    destruct (fst (find_function_scan linbuf last (i - 1))) as [m|]; lia.
Qed.

(** X2.  The cursors as print_context_script sets them are valid, and as long as
    the line numbers given to find_function do not decrease, each call
    returns the nearest function line below the line it is given, searched
    from the start of the pass, NULL if there is none, and leaves the
    cursors valid. *)
Theorem find_function_nearest_preceding (linbuf : lin -> Z) (start : lin) :
  (forall st,
     cursors_valid linbuf start
       (set_last_match (set_last_search st start) LIN_MAX))
  /\ forall linenum st,
       cursors_valid linbuf start st ->
       find_function_last_search st <= linenum <= LIN_MAX ->
       exists r,
         nearest_function_line linbuf start linenum r
         /\ fst (find_function linbuf linenum st) = option_map linbuf r
         /\ cursors_valid linbuf start (snd (find_function linbuf linenum st)).
Proof.
  split.
  - intros st. unfold cursors_valid, remembered_match. simpl.
    rewrite Z.eqb_refl. split; [lia|]. intros k Hk. lia.
  - intros linenum st [Hstart Hvalid] Hline.
    pose proof (find_function_scan_finds_nearest linbuf
                  (find_function_last_search st) linenum) as Hnear.
    unfold find_function, cursors_valid, remembered_match in *.
    destruct (fst (find_function_scan linbuf (find_function_last_search st) linenum))
      as [m|]; simpl in *.
    + destruct Hnear as (Hr & Hm & Hbetween).
      exists (Some m). simpl.
      rewrite (proj2 (Z.eqb_neq m LIN_MAX)) by lia. simpl.
      repeat split; try lia; assumption.
    + destruct (find_function_last_match st =? LIN_MAX) eqn:E; simpl in *.
      * exists None. simpl. rewrite E. simpl.
        assert (Hnone : forall k, start <= k < linenum ->
                  function_line_matches linbuf k = false).
        { intros k Hk.
          destruct (Z_lt_dec k (find_function_last_search st));
            [apply Hvalid|apply Hnear]; lia. }
        repeat split; try lia; assumption.
      * destruct Hvalid as (Hr & Hm & Hbetween).
        exists (Some (find_function_last_match st)). simpl. rewrite E. simpl.
        assert (Hlater : forall k, find_function_last_match st < k < linenum ->
                  function_line_matches linbuf k = false).
        { intros k Hk.
          destruct (Z_lt_dec k (find_function_last_search st));
            [apply Hbetween|apply Hnear]; lia. }
        repeat split; try lia; assumption.
Qed.

(** *** The hunks find_hunk forms *)

(** [grouped start last]: every adjacent pair from [start] to [last] has
    equal gaps in the two files, below the threshold of its second change. *)
Inductive grouped : change -> change -> Prop :=
| grouped_end (c : change) : grouped c c
| grouped_step (c next last : change) :
    link c = Some next ->
    gap0 c next = gap1 c next ->
    gap0 c next < threshold next ->
    grouped next last ->
    grouped c last.

Lemma find_hunk_returned_grouped (start last : change) :
  find_hunk start = Returned last ->
  grouped start last
  /\ match link last with
     | Some next => gap0 last next = gap1 last next
                    /\ threshold next <= gap0 last next
     | None => True
     end.
Proof.
  revert last.
  induction start as [c E | c next E IH] using change_chain_ind; intros last;
    rewrite find_hunk_unfold, E.
  - intros [= <-]. rewrite E. split; [apply grouped_end|exact I].
  - destruct (gap0 c next =? gap1 c next) eqn:G; simpl; [|discriminate].
    apply Z.eqb_eq in G.
    destruct (gap0 c next <? threshold next) eqn:T.
    + intros H. destruct (IH last H) as [Hg Hs].
      split; [|exact Hs].
      apply (grouped_step c next last E G); [apply Z.ltb_lt; exact T|exact Hg].
    + intros [= <-]. rewrite E. apply Z.ltb_ge in T.
      split; [apply grouped_end|split; assumption].
Qed.

(** X3.  find_hunk returns [last] exactly when the changes from [start] to
    [last] are grouped and [last] is the end of the chain or is followed,
    with equal gaps, by a change at least a threshold away. *)
Theorem find_hunk_groups (start last : change) :
  find_hunk start = Returned last
  <-> grouped start last
      /\ match link last with
         | Some next => gap0 last next = gap1 last next
                        /\ threshold next <= gap0 last next
         | None => True
         end.
Proof.
  split; [apply find_hunk_returned_grouped|].
  intros [Hg Hs]. induction Hg as [c | c next last E G T Hg IH].
  - rewrite find_hunk_unfold. destruct (link c) as [next|]; [|reflexivity].
    destruct Hs as [G T].
    rewrite (proj2 (Z.eqb_eq _ _) G). simpl.
    rewrite (proj2 (Z.ltb_ge _ _) T). reflexivity.
  - rewrite find_hunk_unfold, E.
    rewrite (proj2 (Z.eqb_eq _ _) G). simpl.
    rewrite (proj2 (Z.ltb_lt _ _) T). apply IH. exact Hs.
Qed.

(** *** The cursors of the unified loop *)


(** *** The window of a hunk *)

(** X10.  With a non-negative context, the window a hunk is printed in starts at
    most [context] lines before the hunk and not before the first line of
    the file, and it ends at most [context] lines after the hunk and not
    after the last line of the file. *)
Theorem expanded_window_bounds (file : file_data) (first last : lin) :
  0 <= context ->
  - prefix_lines (files 0%nat) <= first ->
  last <= valid_lines file - 1 ->
  (- prefix_lines (files 0%nat) <= expand_first first
   /\ first - context <= expand_first first <= first)
  /\ (expand_last file last <= valid_lines file - 1
      /\ last <= expand_last file last <= last + context).
Proof.
  intros Hc Hf Hl. unfold expand_first, expand_last.
  destruct (last <? valid_lines file - context) eqn:E;
    [apply Z.ltb_lt in E|apply Z.ltb_ge in E]; lia.
Qed.

(** *** What the emitters leave of the state *)

(** The cursors of find_function. *)
Definition cursors (st : state) : lin * lin :=
  (find_function_last_search st, find_function_last_match st).

Lemma cursors_call_util f st : cursors (call_util f st) = cursors st.
Proof. unfold call_util. destruct (f (util st) (outfile st)). reflexivity. Qed.

Lemma cursors_print_context_function function st :
  cursors (print_context_function function st) = cursors st.
Proof. reflexivity. Qed.

Lemma cursors_print_context_number_range file a b st :
  cursors (print_context_number_range file a b st) = cursors st.
Proof.
  unfold print_context_number_range.
  destruct (translate_range file a b) as [ta tb].
  destruct (tb <=? ta); reflexivity.
Qed.

Lemma cursors_print_unidiff_number_range file a b st :
  cursors (print_unidiff_number_range file a b st) = cursors st.
Proof.
  unfold print_unidiff_number_range.
  destruct (translate_range file a b) as [ta tb].
  destruct (tb <=? ta); reflexivity.
Qed.

Lemma cursors_context_old_lines n :
  forall i next st, cursors (context_old_lines n i next st) = cursors st.
Proof.
  induction n as [|n IH]; intros i next st; simpl; [reflexivity|].
  rewrite IH. apply cursors_call_util.
Qed.

Lemma cursors_context_new_lines n :
  forall i next st, cursors (context_new_lines n i next st) = cursors st.
Proof.
  induction n as [|n IH]; intros i next st; simpl; [reflexivity|].
  rewrite IH. apply cursors_call_util.
Qed.

Lemma cursors_unidiff_context_line i st :
  cursors (unidiff_context_line i st) = cursors st.
Proof.
  unfold unidiff_context_line. rewrite cursors_call_util.
  destruct (negb _); reflexivity.
Qed.

Lemma cursors_unidiff_changed_line flag file i st :
  cursors (unidiff_changed_line flag file i st) = cursors st.
Proof.
  unfold unidiff_changed_line. rewrite cursors_call_util.
  destruct (initial_tab && _); reflexivity.
Qed.

Lemma cursors_unidiff_deleted_lines k :
  forall i st, cursors (snd (unidiff_deleted_lines k i st)) = cursors st.
Proof.
  induction k as [|k IH]; intros i st; simpl; [reflexivity|].
  rewrite IH. apply cursors_unidiff_changed_line.
Qed.

Lemma cursors_unidiff_inserted_lines k :
  forall j st, cursors (snd (unidiff_inserted_lines k j st)) = cursors st.
Proof.
  induction k as [|k IH]; intros j st; simpl; [reflexivity|].
  rewrite IH. apply cursors_unidiff_changed_line.
Qed.

Lemma cursors_unidiff_change_lines c i j st :
  cursors (snd (unidiff_change_lines c i j st)) = cursors st.
Proof.
  unfold unidiff_change_lines.
  pose proof (cursors_unidiff_deleted_lines (Z.to_nat (deleted c)) i st) as Hd.
  destruct (unidiff_deleted_lines (Z.to_nat (deleted c)) i st) as [i' st'].
  pose proof (cursors_unidiff_inserted_lines (Z.to_nat (inserted c)) j st') as Hi.
  destruct (unidiff_inserted_lines (Z.to_nat (inserted c)) j st') as [j' st''].
  simpl in *. congruence.
Qed.

Lemma cursors_unidiff_loop last0 last1 i j next st :
  cursors (snd (unidiff_loop last0 last1 i j next st)) = cursors st.
Proof.
  remember (chain_length next
            + Z.to_nat (Z.max (last0 + 1 - i) (last1 + 1 - j)))%nat as n eqn:Hn.
  assert (Hle : (chain_length next
                 + Z.to_nat (Z.max (last0 + 1 - i) (last1 + 1 - j)) <= n)%nat)
    by lia.
  clear Hn. revert i j next st Hle.
  induction n as [|n IH]; intros i j next st Hle; rewrite unidiff_loop_eq;
    destruct ((i <=? last0) || (j <=? last1)) eqn:C; try reflexivity;
    apply orb_true_iff in C; rewrite !Z.leb_le in C; [lia|].
  destruct next as [c|].
  - destruct (i <? line0 c) eqn:L.
    + rewrite IH by (simpl in *; lia). apply cursors_unidiff_context_line.
    + pose proof (unidiff_change_lines_cursors c i j st) as [Hi Hj].
      pose proof (cursors_unidiff_change_lines c i j st) as Hc.
      destruct (unidiff_change_lines c i j st) as [[i' j'] st']. simpl in Hi, Hj, Hc.
      pose proof (chain_length_link c) as Hl.
      rewrite IH by (simpl in *; lia). exact Hc.
  - rewrite IH by (simpl in *; lia). apply cursors_unidiff_context_line.
Qed.

Lemma cursors_fputs s st : cursors (fputs s st) = cursors st.
Proof. reflexivity. Qed.

Lemma cursors_putc c st : cursors (putc c st) = cursors st.
Proof. reflexivity. Qed.

Ltac cursors_frame :=
  repeat first
    [ rewrite cursors_fputs | rewrite cursors_putc | rewrite cursors_call_util
    | rewrite cursors_print_context_function
    | rewrite cursors_print_context_number_range
    | rewrite cursors_print_unidiff_number_range
    | rewrite cursors_context_old_lines | rewrite cursors_context_new_lines
    | rewrite cursors_unidiff_loop ].

(** X9.  The emitters write the cursors of find_function only by calling
    find_function: after a hunk they are the cursors find_function left for
    the first line of the window, and they are untouched when the hunk is
    unchanged or no function regexp is set. *)
Theorem hunk_emitters_cursors (hunk : change) (st : state) :
  let '(kind, first0, _, _, _) := analyze_hunk hunk in
  let after :=
    if changes_is_zero kind || negb (fastmap function_regexp) then cursors st
    else cursors (snd (find_function (linbuf (files 0%nat)) (expand_first first0) st)) in
  cursors (pr_context_hunk hunk st) = after
  /\ cursors (pr_unidiff_hunk hunk st) = after.
Proof.
  unfold pr_context_hunk, pr_unidiff_hunk, preceding_function.
  destruct (analyze_hunk hunk) as [[[[kind first0] last0] first1] last1].
  destruct (changes_is_zero kind); simpl; [split; reflexivity|].
  destruct (fastmap function_regexp); simpl;
    [destruct (find_function (linbuf (files 0%nat)) (expand_first first0) st)
       as [function st']; simpl; destruct function|];
    (split;
     [destruct (changes_has kind NEW), (changes_has kind OLD)|];
     cursors_frame; reflexivity).
Qed.


(** *** The marks of the context hunk *)

(** Successive changes start at non-decreasing lines of file 0. *)
Fixpoint sorted_old (c : change) : Prop :=
  match link c with
  | Some next => line0 c <= line0 next /\ sorted_old next
  | None => True
  end.

(** The first change of the chain whose deleted lines include line [i]. *)
Fixpoint covering_old (c : change) (i : lin) : option change :=
  if (line0 c <=? i) && (i <? line0 c + deleted c) then Some c
  else match link c with
       | Some next => covering_old next i
       | None => None
       end.

(** The mark of line [i] of file 0: [!] in a change that also inserts, [-]
    in one that only deletes, a space outside of every change. *)
Definition old_mark (next : option change) (i : lin) : string :=
  match next with
  | Some c =>
      match covering_old c i with
      | Some c' => if inserted c' >? 0 then "!" else "-"
      | None => " "
      end
  | None => " "
  end.

(** Print the [n] lines of [file] from line [i] on, each with its mark. *)
Fixpoint print_marked_lines (mark : lin -> string) (file : file_data)
    (n : nat) (i : lin) (st : state) : state :=
  match n with
  | O => st
  | S n' =>
      print_marked_lines mark file n' (i + 1)
        (call_util (print_1_line (Some (mark i)) file i) st)
  end.

Lemma sorted_old_unfold (c : change) :
  sorted_old c
  = match link c with
    | Some next => line0 c <= line0 next /\ sorted_old next
    | None => True
    end.
Proof. destruct c as [[next|] ? ? ? ? ?]; reflexivity. Qed.

Lemma covering_old_unfold (c : change) (i : lin) :
  covering_old c i
  = if (line0 c <=? i) && (i <? line0 c + deleted c) then Some c
    else match link c with
         | Some next => covering_old next i
         | None => None
         end.
Proof. destruct c as [[next|] ? ? ? ? ?]; reflexivity. Qed.

Lemma skip_old_changes_unfold (c : change) (i : lin) :
  skip_old_changes c i
  = if line0 c + deleted c <=? i then
      match link c with
      | Some next => skip_old_changes next i
      | None => None
      end
    else Some c.
Proof. destruct c as [[next|] ? ? ? ? ?]; reflexivity. Qed.

(** No change of a sorted chain covers a line before the first change. *)
Lemma covering_old_before (c : change) (i : lin) :
  sorted_old c -> i < line0 c -> covering_old c i = None.
Proof.
  induction c as [c E | c next E IH] using change_chain_ind;
    rewrite sorted_old_unfold, covering_old_unfold, E; intros Hs Hi;
    rewrite (proj2 (Z.leb_gt (line0 c) i)) by lia; simpl; [reflexivity|].
  apply IH; [apply Hs|lia].
Qed.

(** The changes skipped for line [i] cover no line from [i] on. *)
Lemma skip_old_changes_spec (c : change) (i : lin) :
  sorted_old c ->
  match skip_old_changes c i with
  | Some c' => sorted_old c' /\ i < line0 c' + deleted c'
  | None => True
  end
  /\ forall k, i <= k ->
       old_mark (Some c) k = old_mark (skip_old_changes c i) k.
Proof.
  induction c as [c E | c next E IH] using change_chain_ind;
    rewrite sorted_old_unfold, skip_old_changes_unfold, E; intros Hs;
    destruct (line0 c + deleted c <=? i) eqn:T;
    try (apply Z.leb_gt in T; rewrite sorted_old_unfold, E;
         split; [split; [exact Hs|lia]|reflexivity]);
    apply Z.leb_le in T.
  - split; [exact I|]. intros k Hk. unfold old_mark.
    rewrite covering_old_unfold, E.
    rewrite (proj2 (Z.ltb_ge k (line0 c + deleted c))) by lia.
    rewrite andb_false_r. reflexivity.
  - destruct Hs as [Hle Hs]. destruct (IH Hs) as [H1 H2].
    split; [exact H1|]. intros k Hk. rewrite <- (H2 k Hk). unfold old_mark.
    rewrite (covering_old_unfold c), E.
    rewrite (proj2 (Z.ltb_ge k (line0 c + deleted c))) by lia.
    rewrite andb_false_r. reflexivity.
Qed.

Lemma context_old_lines_marked (mark : lin -> string) (n : nat) :
  forall i next st,
    match next with Some c => sorted_old c | None => True end ->
    (forall k, i <= k -> mark k = old_mark next k) ->
    context_old_lines n i next st = print_marked_lines mark (files 0%nat) n i st.
Proof.
  induction n as [|n IH]; intros i next st Hs Hm; simpl; [reflexivity|].
  destruct next as [c|].
  - destruct (skip_old_changes_spec c i Hs) as [Hnext Hmark].
    destruct (skip_old_changes c i) as [c'|] eqn:E.
    + destruct Hnext as [Hs' Hend].
      replace (mark i)
        with (if line0 c' <=? i then if inserted c' >? 0 then "!" else "-"
              else " ").
      * apply IH; [exact Hs'|]. intros k Hk.
        rewrite (Hm k) by lia. apply Hmark. lia.
      * rewrite (Hm i) by lia. rewrite (Hmark i) by lia. unfold old_mark.
        destruct (line0 c' <=? i) eqn:L.
        -- rewrite covering_old_unfold, L.
           rewrite (proj2 (Z.ltb_lt i (line0 c' + deleted c'))) by lia.
           reflexivity.
        -- apply Z.leb_gt in L. rewrite covering_old_before by assumption.
           reflexivity.
    + replace (mark i) with " ".
      * apply IH; [exact I|]. intros k Hk.
        rewrite (Hm k) by lia. apply Hmark. lia.
      * rewrite (Hm i) by lia. rewrite (Hmark i) by lia. reflexivity.
  - replace (mark i) with " " by (rewrite (Hm i) by lia; reflexivity).
    apply IH; [exact I|]. intros k Hk. apply Hm. lia.
Qed.

(** X7.  In a hunk whose changes start at non-decreasing lines of file 0, the
    walk of pr_context_hunk over the lines of file 0 gives each line the mark
    of the change that covers it: [!] when that change also inserts lines,
    [-] when it only deletes, and a space when no change covers the line. *)
Theorem context_old_lines_marks (hunk : change) (n : nat) (i : lin) (st : state) :
  sorted_old hunk ->
  context_old_lines n i (Some hunk) st
  = print_marked_lines (old_mark (Some hunk)) (files 0%nat) n i st.
Proof.
  intros Hs. apply context_old_lines_marked; [exact Hs|reflexivity].
Qed.



(** Successive changes start at non-decreasing lines of file 1. *)
Fixpoint sorted_new (c : change) : Prop :=
  match link c with
  | Some next => line1 c <= line1 next /\ sorted_new next
  | None => True
  end.

(** The first change of the chain whose inserted lines include line [i]. *)
Fixpoint covering_new (c : change) (i : lin) : option change :=
  if (line1 c <=? i) && (i <? line1 c + inserted c) then Some c
  else match link c with
       | Some next => covering_new next i
       | None => None
       end.

(** The mark of line [i] of file 1: [!] in a change that also deletes, [+]
    in one that only inserts, a space outside of every change. *)
Definition new_mark (next : option change) (i : lin) : string :=
  match next with
  | Some c =>
      match covering_new c i with
      | Some c' => if deleted c' >? 0 then "!" else "+"
      | None => " "
      end
  | None => " "
  end.

Lemma sorted_new_unfold (c : change) :
  sorted_new c
  = match link c with
    | Some next => line1 c <= line1 next /\ sorted_new next
    | None => True
    end.
Proof. destruct c as [[next|] ? ? ? ? ?]; reflexivity. Qed.

Lemma covering_new_unfold (c : change) (i : lin) :
  covering_new c i
  = if (line1 c <=? i) && (i <? line1 c + inserted c) then Some c
    else match link c with
         | Some next => covering_new next i
         | None => None
         end.
Proof. destruct c as [[next|] ? ? ? ? ?]; reflexivity. Qed.

Lemma skip_new_changes_unfold (c : change) (i : lin) :
  skip_new_changes c i
  = if line1 c + inserted c <=? i then
      match link c with
      | Some next => skip_new_changes next i
      | None => None
      end
    else Some c.
Proof. destruct c as [[next|] ? ? ? ? ?]; reflexivity. Qed.

(** No change of a sorted chain covers a line before the first change. *)
Lemma covering_new_before (c : change) (i : lin) :
  sorted_new c -> i < line1 c -> covering_new c i = None.
Proof.
  induction c as [c E | c next E IH] using change_chain_ind;
    rewrite sorted_new_unfold, covering_new_unfold, E; intros Hs Hi;
    rewrite (proj2 (Z.leb_gt (line1 c) i)) by lia; simpl; [reflexivity|].
  apply IH; [apply Hs|lia].
Qed.

(** The changes skipped for line [i] cover no line from [i] on. *)
Lemma skip_new_changes_spec (c : change) (i : lin) :
  sorted_new c ->
  match skip_new_changes c i with
  | Some c' => sorted_new c' /\ i < line1 c' + inserted c'
  | None => True
  end
  /\ forall k, i <= k ->
       new_mark (Some c) k = new_mark (skip_new_changes c i) k.
Proof.
  induction c as [c E | c next E IH] using change_chain_ind;
    rewrite sorted_new_unfold, skip_new_changes_unfold, E; intros Hs;
    destruct (line1 c + inserted c <=? i) eqn:T;
    try (apply Z.leb_gt in T; rewrite sorted_new_unfold, E;
         split; [split; [exact Hs|lia]|reflexivity]);
    apply Z.leb_le in T.
  - split; [exact I|]. intros k Hk. unfold new_mark.
    rewrite covering_new_unfold, E.
    rewrite (proj2 (Z.ltb_ge k (line1 c + inserted c))) by lia.
    rewrite andb_false_r. reflexivity.
  - destruct Hs as [Hle Hs]. destruct (IH Hs) as [H1 H2].
    split; [exact H1|]. intros k Hk. rewrite <- (H2 k Hk). unfold new_mark.
    rewrite (covering_new_unfold c), E.
    rewrite (proj2 (Z.ltb_ge k (line1 c + inserted c))) by lia.
    rewrite andb_false_r. reflexivity.
Qed.

Lemma context_new_lines_marked (mark : lin -> string) (n : nat) :
  forall i next st,
    match next with Some c => sorted_new c | None => True end ->
    (forall k, i <= k -> mark k = new_mark next k) ->
    context_new_lines n i next st = print_marked_lines mark (files 1%nat) n i st.
Proof.
  induction n as [|n IH]; intros i next st Hs Hm; simpl; [reflexivity|].
  destruct next as [c|].
  - destruct (skip_new_changes_spec c i Hs) as [Hnext Hmark].
    destruct (skip_new_changes c i) as [c'|] eqn:E.
    + destruct Hnext as [Hs' Hend].
      replace (mark i)
        with (if line1 c' <=? i then if deleted c' >? 0 then "!" else "+"
              else " ").
      * apply IH; [exact Hs'|]. intros k Hk.
        rewrite (Hm k) by lia. apply Hmark. lia.
      * rewrite (Hm i) by lia. rewrite (Hmark i) by lia. unfold new_mark.
        destruct (line1 c' <=? i) eqn:L.
        -- rewrite covering_new_unfold, L.
           rewrite (proj2 (Z.ltb_lt i (line1 c' + inserted c'))) by lia.
           reflexivity.
        -- apply Z.leb_gt in L. rewrite covering_new_before by assumption.
           reflexivity.
    + replace (mark i) with " ".
      * apply IH; [exact I|]. intros k Hk.
        rewrite (Hm k) by lia. apply Hmark. lia.
      * rewrite (Hm i) by lia. rewrite (Hmark i) by lia. reflexivity.
  - replace (mark i) with " " by (rewrite (Hm i) by lia; reflexivity).
    apply IH; [exact I|]. intros k Hk. apply Hm. lia.
Qed.

(** X8.  In a hunk whose changes start at non-decreasing lines of file 1, the
    walk of pr_context_hunk over the lines of file 1 gives each line the mark
    of the change that covers it: [!] when that change also deletes lines,
    [+] when it only inserts, and a space when no change covers the line. *)
Theorem context_new_lines_marks (hunk : change) (n : nat) (i : lin) (st : state) :
  sorted_new hunk ->
  context_new_lines n i (Some hunk) st
  = print_marked_lines (new_mark (Some hunk)) (files 1%nat) n i st.
Proof.
  intros Hs. apply context_new_lines_marked; [exact Hs|reflexivity].
Qed.


(** *** The lines of the unified hunk *)

(** Every change of the hunk deletes or inserts a line. *)
Fixpoint changes_nonempty (c : change) : Prop :=
  0 < deleted c + inserted c
  /\ match link c with
     | Some next => changes_nonempty next
     | None => True
     end.

(** The [n] lines of file 0 from line [i] on, printed as context. *)
Fixpoint unidiff_context_lines (n : nat) (i : lin) (st : state) : state :=
  match n with
  | O => st
  | S n' => unidiff_context_lines n' (i + 1) (unidiff_context_line i st)
  end.

(** The body of a unified hunk, change by change: the unchanged lines of
    file 0 before the change, its deleted lines, its inserted lines, and
    after the last change the unchanged lines up to [last0]. *)
Fixpoint unidiff_hunk_lines (c : change) (i j last0 : lin) (st : state) : state :=
  let st := unidiff_context_lines (Z.to_nat (line0 c - i)) i st in
  let st := snd (unidiff_change_lines c (line0 c) (j + (line0 c - i)) st) in
  match link c with
  | Some next =>
      unidiff_hunk_lines next (line0 c + deleted c)
        (j + (line0 c - i) + inserted c) last0 st
  | None =>
      unidiff_context_lines (Z.to_nat (last0 + 1 - (line0 c + deleted c)))
        (line0 c + deleted c) st
  end.

Lemma changes_nonempty_unfold (c : change) :
  changes_nonempty c
  = (0 < deleted c + inserted c
     /\ match link c with
        | Some next => changes_nonempty next
        | None => True
        end).
Proof. destruct c as [[next|] ? ? ? ? ?]; reflexivity. Qed.

Lemma unidiff_hunk_lines_unfold (c : change) (i j last0 : lin) (st : state) :
  unidiff_hunk_lines c i j last0 st
  = match link c with
    | Some next =>
        unidiff_hunk_lines next (line0 c + deleted c)
          (j + (line0 c - i) + inserted c) last0
          (snd (unidiff_change_lines c (line0 c) (j + (line0 c - i))
                  (unidiff_context_lines (Z.to_nat (line0 c - i)) i st)))
    | None =>
        unidiff_context_lines (Z.to_nat (last0 + 1 - (line0 c + deleted c)))
          (line0 c + deleted c)
          (snd (unidiff_change_lines c (line0 c) (j + (line0 c - i))
                  (unidiff_context_lines (Z.to_nat (line0 c - i)) i st)))
    end.
Proof. destruct c as [[next|] ? ? ? ? ?]; reflexivity. Qed.

Lemma unidiff_hunk_lines_step (c : change) (i j last0 : lin) (st : state) :
  i < line0 c ->
  unidiff_hunk_lines c i j last0 st
  = unidiff_hunk_lines c (i + 1) (j + 1) last0 (unidiff_context_line i st).
Proof.
  intros Hi. rewrite !unidiff_hunk_lines_unfold.
  replace (Z.to_nat (line0 c - i)) with (S (Z.to_nat (line0 c - (i + 1)))) by lia.
  replace (j + 1 + (line0 c - (i + 1))) with (j + (line0 c - i)) by lia.
  reflexivity.
Qed.

Lemma unidiff_loop_tail_lines last0 last1 (n : nat) :
  forall i j st,
    Z.of_nat n = last0 + 1 - i -> last0 - i = last1 - j ->
    unidiff_loop last0 last1 i j None st
    = (last0 + 1, last1 + 1, unidiff_context_lines n i st).
Proof.
  induction n as [|n IH]; intros i j st Hn Hb; rewrite unidiff_loop_eq.
  - rewrite (proj2 (Z.leb_gt i last0)), (proj2 (Z.leb_gt j last1)) by lia.
    simpl. repeat f_equal; lia.
  - rewrite (proj2 (Z.leb_le i last0)) by lia. simpl.
    apply IH; lia.
Qed.

Lemma unidiff_loop_lines first0 last0 first1 last1 (c : change) :
  well_formed c -> changes_nonempty c ->
  inside_window first0 last0 first1 last1 c ->
  forall (n : nat) i j st,
    Z.of_nat n = line0 c - i ->
    (last0 + 1 - i) - total_deleted c = (last1 + 1 - j) - total_inserted c ->
    unidiff_loop last0 last1 i j (Some c) st
    = (last0 + 1, last1 + 1, unidiff_hunk_lines c i j last0 st).
Proof.
  induction c as [c E | c next E IH] using change_chain_ind;
    intros Hw Hne Hin;
    pose proof (total_deleted_bounds _ _ _ _ c Hw Hin) as Hb;
    revert Hw Hne Hin Hb;
    rewrite well_formed_unfold, changes_nonempty_unfold, inside_window_unfold,
      total_deleted_unfold, total_inserted_unfold, E;
    intros Hw Hne Hin Hb;
    induction n as [|n IHn]; intros i j st Hn Hbal;
    try (rewrite unidiff_hunk_lines_step by lia;
         rewrite unidiff_loop_eq;
         rewrite (proj2 (Z.leb_le i last0)) by lia; simpl;
         rewrite (proj2 (Z.ltb_lt i (line0 c))) by lia;
         apply IHn; lia).
  - (* the last change, reached *)
    rewrite unidiff_loop_eq.
    replace ((i <=? last0) || (j <=? last1)) with true
      by (symmetry; apply orb_true_iff; rewrite !Z.leb_le; lia).
    rewrite (proj2 (Z.ltb_ge i (line0 c))) by lia.
    rewrite unidiff_hunk_lines_unfold, E.
    replace (line0 c - i) with 0 by lia. replace (line0 c) with i by lia.
    rewrite Z.add_0_r. simpl unidiff_context_lines at 2.
    pose proof (unidiff_change_lines_cursors c i j st) as [Hi Hj].
    destruct (unidiff_change_lines c i j st) as [[i' j'] st']. simpl in Hi, Hj.
    simpl snd.
    replace (i + deleted c) with i' by lia.
    apply unidiff_loop_tail_lines; lia.
  - (* a change followed by others, reached *)
    destruct Hw as (Hd & Hi' & Ho & Hw). destruct Hin as (H0 & H1 & Hin).
    destruct Hne as (Hne0 & Hne).
    pose proof (total_deleted_bounds _ _ _ _ next Hw Hin) as Hbn.
    rewrite unidiff_loop_eq.
    replace ((i <=? last0) || (j <=? last1)) with true
      by (symmetry; apply orb_true_iff; rewrite !Z.leb_le; lia).
    rewrite (proj2 (Z.ltb_ge i (line0 c))) by lia.
    rewrite unidiff_hunk_lines_unfold, E.
    replace (line0 c - i) with 0 by lia. replace (line0 c) with i by lia.
    rewrite Z.add_0_r. simpl unidiff_context_lines at 1.
    pose proof (unidiff_change_lines_cursors c i j st) as [Hi Hj].
    destruct (unidiff_change_lines c i j st) as [[i' j'] st']. simpl in Hi, Hj.
    simpl snd.
    replace (i + deleted c) with i' by lia.
    replace (j + inserted c) with j' by lia.
    apply (IH Hw Hne Hin (Z.to_nat (line0 next - i'))); lia.
Qed.

(** X6.  For a hunk of well-formed, non-empty changes inside a window that holds
    as many unchanged lines in file 0 as in file 1, the loop of
    pr_unidiff_hunk prints every change of the hunk, in order: before each
    change the unchanged lines of file 0 that separate it from the previous
    one (or from the start of the window), then its deleted lines, then its
    inserted lines, and after the last change the unchanged lines up to the
    end of the window. *)
Theorem unidiff_loop_prints_hunk first0 last0 first1 last1 (hunk : change)
    (st : state) :
  well_formed hunk -> changes_nonempty hunk ->
  inside_window first0 last0 first1 last1 hunk ->
  (last0 - first0 + 1) - total_deleted hunk
  = (last1 - first1 + 1) - total_inserted hunk ->
  unidiff_loop last0 last1 first0 first1 (Some hunk) st
  = (last0 + 1, last1 + 1, unidiff_hunk_lines hunk first0 first1 last0 st).
Proof.
  intros Hw Hne Hin Hbal.
  apply (unidiff_loop_lines first0 last0 first1 last1 hunk Hw Hne Hin
           (Z.to_nat (line0 hunk - first0))).
  - rewrite inside_window_unfold in Hin. lia.
  - lia.
Qed.


(** *** The label as a part of the line *)

Lemma drop_leading_space_split (l : list ascii) :
  exists pre, l = (pre ++ drop_leading_space l)%list
              /\ Forall (fun c => c_isspace c = true) pre.
Proof.
  induction l as [|c l [pre [Hl Hpre]]]; simpl.
  - exists []. split; [reflexivity|constructor].
  - destruct (c_isspace c && negb (c =? newline)%char) eqn:E.
    + exists (c :: pre). split.
      * simpl. rewrite <- Hl. reflexivity.
      * constructor; [|exact Hpre]. apply andb_true_iff in E. apply E.
    + exists []. split; [reflexivity|constructor].
Qed.

Lemma drop_leading_space_head (l : list ascii) (c : ascii) (t : list ascii) :
  drop_leading_space l = c :: t -> c_isspace c = false \/ c = newline.
Proof.
  induction l as [|a l IH]; simpl; [discriminate|].
  destruct (c_isspace a && negb (a =? newline)%char) eqn:E; [exact IH|].
  intros [= -> ->]. apply andb_false_iff in E. destruct E as [E|E].
  - left. exact E.
  - right. apply negb_false_iff in E. apply Ascii.eqb_eq. exact E.
Qed.

Lemma up_to_newline_split (l : list ascii) :
  exists post, l = (up_to_newline l ++ post)%list.
Proof.
  induction l as [|c l [post Hl]]; simpl.
  - exists []. reflexivity.
  - destruct (c =? newline)%char.
    + exists (c :: l). reflexivity.
    + exists post. simpl. rewrite <- Hl. reflexivity.
Qed.

Lemma trim_right_split (l : list ascii) :
  exists post, l = (trim_right l ++ post)%list.
Proof.
  induction l as [|c l [post Hl]]; simpl.
  - exists []. reflexivity.
  - destruct (trim_right l) as [|t ts].
    + destruct (c_isspace c).
      * exists (c :: l). reflexivity.
      * exists l. reflexivity.
    + exists post. simpl. rewrite Hl at 1. reflexivity.
Qed.

(** X12.  The label print_context_function writes for a line that ends in a
    newline is a run of bytes of the line that is preceded by white space
    only, and it does not begin with white space: the line is
    [pre ++ label ++ post] with [pre] all white space. *)
Theorem print_context_function_writes_run (function : list ascii) (st : state) :
  In newline function ->
  exists pre label post,
    function = (pre ++ label ++ post)%list
    /\ Forall (fun c => c_isspace c = true) pre
    /\ print_context_function function st = fwrite label (putc " " st)
    /\ forall c t, label = c :: t -> c_isspace c = false.
Proof.
  intros _.
  destruct (drop_leading_space_split function) as [pre [Hf Hpre]].
  destruct (up_to_newline_split (drop_leading_space function)) as [post1 H1].
  pose proof (firstn_skipn 40 (up_to_newline (drop_leading_space function))) as H2.
  destruct (trim_right_split (firstn 40 (up_to_newline (drop_leading_space function))))
    as [post3 H3].
  exists pre, (function_label function),
    (post3 ++ skipn 40 (up_to_newline (drop_leading_space function)) ++ post1)%list.
  split; [|split; [exact Hpre|split; [apply print_context_function_bytes|]]].
  - unfold function_label. rewrite Hf at 1. f_equal.
    rewrite H1 at 1. rewrite <- H2 at 1. rewrite H3 at 1.
    rewrite <- !app_assoc. reflexivity.
  - unfold function_label. intros c t Hc.
    rewrite Hc in H3. rewrite H3 in H2.
    destruct (drop_leading_space function) as [|a l] eqn:Hd; [discriminate|].
    destruct (drop_leading_space_head function a l Hd) as [Ha|Ha].
    + simpl in H2. destruct (a =? newline)%char; [discriminate|].
      injection H2 as <- _. exact Ha.
    + subst a. simpl in H2. discriminate.
Qed.


(** *** The window and the two files *)

(** X11.  When as many lines follow the hunk in file 0 as in file 1, and the hunk
    starts at the same line in both files or at least a context's width
    after the first line, the window shows as many lines of context before
    the hunk, and as many after it, in file 0 as in file 1. *)
Theorem expanded_window_balanced (first0 last0 first1 last1 : lin) :
  first0 = first1
  \/ (context - prefix_lines (files 0%nat) <= first0
      /\ context - prefix_lines (files 0%nat) <= first1) ->
  valid_lines (files 0%nat) - last0 = valid_lines (files 1%nat) - last1 ->
  first0 - expand_first first0 = first1 - expand_first first1
  /\ expand_last (files 0%nat) last0 - last0
     = expand_last (files 1%nat) last1 - last1.
Proof.
  intros Hf Hl. unfold expand_first, expand_last.
  destruct (last0 <? valid_lines (files 0%nat) - context) eqn:E0;
    destruct (last1 <? valid_lines (files 1%nat) - context) eqn:E1;
    rewrite ?Z.ltb_lt, ?Z.ltb_ge in E0, E1; lia.
Qed.

(** *** Resuming the walk of find_hunk *)

Lemma find_hunk_resumes (start mid : change) :
  grouped start mid -> find_hunk start = find_hunk mid.
Proof.
  intros Hg. induction Hg as [c | c next last E G T Hg IH]; [reflexivity|].
  rewrite find_hunk_unfold, E.
  rewrite (proj2 (Z.eqb_eq _ _) G). simpl.
  rewrite (proj2 (Z.ltb_lt _ _) T). exact IH.
Qed.

End Context.

Arguments Build_state {util_state}.
Arguments outfile {util_state}.
Arguments util {util_state}.
Arguments find_function_last_search {util_state}.
Arguments find_function_last_match {util_state}.
Arguments fputs {util_state}.
Arguments putc {util_state}.
Arguments fwrite {util_state}.

(** ** Script preparation with analyze_hunk as the format describes it *)

Section ScriptPreparation.

Variable ignore_blank_lines : bool.
Variable files : nat -> file_data.
Variable memory : list ascii.
Variable re_pattern_buffer : Type.
Variable fastmap : re_pattern_buffer -> bool.
Variable re_search : re_pattern_buffer -> list ascii -> Z -> Z -> Z -> Z.
Variable ignore_regexp : re_pattern_buffer.

#[local] Notation "'analyze'" :=
  (spec_analyze_hunk ignore_blank_lines files memory re_pattern_buffer fastmap
     re_search ignore_regexp).
#[local] Notation "'prepare'" :=
  (set_ignore_flags ignore_blank_lines re_pattern_buffer fastmap ignore_regexp
     analyze).

(** The verdict on a change alone does not move when its flag is set to
    that verdict. *)
Lemma spec_analyze_hunk_stable (c : change) :
  link c = None ->
  changes_is_zero
    (hunk_kind analyze (set_ignore c (changes_is_zero (hunk_kind analyze c))))
  = changes_is_zero (hunk_kind analyze c).
Proof.
  destruct c as [l ins del l0 l1 ig]. simpl. intros ->.
  unfold hunk_kind, spec_analyze_hunk, set_ignore. simpl.
  destruct (ignorable_lines ignore_blank_lines memory re_pattern_buffer fastmap
              re_search ignore_regexp (files 0%nat) (Z.to_nat del) l0);
    destruct (ignorable_lines ignore_blank_lines memory re_pattern_buffer fastmap
                re_search ignore_regexp (files 1%nat) (Z.to_nat ins) l1);
    destruct ig; destruct (del + 0 =? 0); destruct (ins + 0 =? 0); reflexivity.
Qed.

(** C8.  With analyze_hunk as the format describes it, setting the
    [ignore] flags of a script that has just been through it changes
    nothing: every change keeps the flag the first run gave it. *)
Theorem set_ignore_flags_idempotent (script : option change) :
  prepare (prepare script) = prepare script
  /\ map ignore (changes_of (prepare (prepare script)))
     = map ignore (changes_of (prepare script)).
Proof.
  assert (H : prepare (prepare script) = prepare script).
  { apply set_ignore_flags_twice. intros c Hc.
    apply spec_analyze_hunk_stable. exact Hc. }
  split; [exact H|]. rewrite H. reflexivity.
Qed.

End ScriptPreparation.

(** ** Hunks and the width of the context *)

Lemma threshold_mono (context context' : lin) (next : change) :
  context <= context' -> threshold context next <= threshold context' next.
Proof. intros H. unfold threshold. destruct (ignore next); lia. Qed.

Lemma grouped_mono (context context' : lin) (start last : change) :
  context <= context' -> grouped context start last -> grouped context' start last.
Proof.
  intros H Hg. induction Hg as [c | c next last E G T Hg IH].
  - apply grouped_end.
  - apply (grouped_step context' c next last E G); [|exact IH].
    pose proof (threshold_mono context context' next H). lia.
Qed.

(** X4.  A wider context never splits a hunk: the hunk find_hunk forms from
    [start] with the wider context extends the one it forms with the
    narrower context, that is, it ends at a change grouped with the end of
    the narrower hunk. *)
Theorem hunks_grow_with_context (context context' : lin)
    (start last last' : change) :
  context <= context' ->
  find_hunk context start = Returned last ->
  find_hunk context' start = Returned last' ->
  grouped context' last last'.
Proof.
  intros H Hn Hw.
  apply find_hunk_returned_grouped in Hn. destruct Hn as [Hg _].
  apply (grouped_mono context context' start last H) in Hg.
  rewrite (find_hunk_resumes context' start last Hg) in Hw.
  apply find_hunk_returned_grouped in Hw. apply Hw.
Qed.

(** ** Sample inputs *)

Module Sample.

#[local] Open Scope string_scope.

(** Two files, ["a b c d e"] and ["a b d e"], one line each, read one after
    the other into memory. *)
Definition memory : list ascii :=
  list_ascii_of_string
    ("a" ++ NL ++ "b" ++ NL ++ "c" ++ NL ++ "d" ++ NL ++ "e" ++ NL
     ++ "a" ++ NL ++ "b" ++ NL ++ "d" ++ NL ++ "e" ++ NL).

Definition files (k : nat) : file_data :=
  match k with
  | O => Build_file_data "old" (Build_stat 1700000000 123) (fun i => 2 * i) 5 0
  | _ => Build_file_data "new" (Build_stat 1700000060 0) (fun i => 10 + 2 * i) 4 0
  end.

Definition names (k : nat) : string := name (files k).

Definition no_label (k : nat) : option string := None.

(** Line [c] of the first file is deleted. *)
Definition delete_c : change := Build_change None 0 1 2 2 false.

(** Line [c] of the first file is replaced by one line. *)
Definition replace_c : change := Build_change None 1 1 2 2 false.

(** Two changes, three lines apart in both files. *)
Definition two_changes : change :=
  Build_change (Some (Build_change None 0 1 5 4 false)) 0 1 1 1 false.

(** Two changes, two lines apart in file 0 and three in file 1. *)
Definition unequal_gaps : change :=
  Build_change (Some (Build_change None 0 1 5 5 false)) 0 1 2 2 false.

(** util.c, as far as the samples need it. *)
Definition translate_range (file : file_data) (a b : lin) : Z * Z :=
  (a + prefix_lines file + 1, b + prefix_lines file + 1).

Definition begin_output (u : unit) (out : string) : unit * string := (u, out).

Definition print_1_line (flag : option string) (file : file_data) (i : lin)
    (u : unit) (out : string) : unit * string :=
  let start := Z.to_nat (linbuf file i) in
  let len := Z.to_nat (linbuf file (i + 1) - linbuf file i) in
  (u, out
      ++ match flag with Some f => f ++ " " | None => EmptyString end
      ++ string_of_list_ascii (firstn len (skipn start memory))).

(** An analysis that finds nothing to show. *)
Definition nothing_to_show (hunk : change) : changes * lin * lin * lin * lin :=
  (UNCHANGED, line0 hunk, line0 hunk + deleted hunk - 1,
   line1 hunk, line1 hunk + inserted hunk - 1).

(** A pattern matches the lines that start with its byte. *)
Definition re_search (pattern : ascii) (line : list ascii) (size start range : Z)
  : Z :=
  match line with
  | c :: _ => if (c =? pattern)%char then 0 else -1
  | [] => -1
  end.

Definition initial : state unit := Build_state EmptyString tt 0 (2 ^ 63 - 1).

(** A function line with white space around its text. *)
Definition function_line : list ascii :=
  list_ascii_of_string ("  int main (void)   " ++ NL ++ "{" ++ NL).

End Sample.

(** ** The statements at the sample inputs *)

(** find_hunk aborts on the script with unequal gaps, where the maximal run
    would end in its second change. *)
Lemma find_hunk_returns_run_end_fails_with_unequal_gaps :
  find_hunk 3 Sample.unequal_gaps <> Returned (run_end 3 Sample.unequal_gaps).
Proof. vm_compute. discriminate. Qed.

Lemma find_hunk_returns_run_end_sample :
  find_hunk 3 Sample.two_changes = Returned (run_end 3 Sample.two_changes).
Proof.
  apply (find_hunk_returns_run_end 3 Sample.two_changes).
  intros prev next H. inversion H as [s n E | s succ p n E G T H']; subst.
  - injection E as <-. reflexivity.
  - injection E as <-. inversion H'; discriminate.
Defined.

Lemma find_hunk_aborts_on_unequal_gaps_only_sample :
  (exists last, find_hunk 3 Sample.two_changes = Returned last)
  /\ find_hunk 3 Sample.unequal_gaps = Aborted.
Proof.
  split.
  - apply (proj1 (find_hunk_aborts_on_unequal_gaps_only 3 Sample.two_changes)).
    simpl. split; [reflexivity|exact I].
  - apply (proj2 (find_hunk_aborts_on_unequal_gaps_only 3 Sample.unequal_gaps)
             Sample.unequal_gaps (Build_change None 0 1 5 5 false)).
    + apply examines_first. reflexivity.
    + vm_compute. discriminate.
Defined.

(** A change that lies inside the window [0, 4] x [0, 3]: the loop leaves
    cursor [j] at 5, one past [last1 + 1]. *)
Lemma unidiff_loop_final_cursors_fail_in_unbalanced_window :
  inside_window 0 4 0 3 Sample.replace_c
  /\ equal_gaps Sample.replace_c
  /\ fst (unidiff_loop false false Sample.files Sample.memory unit
            Sample.print_1_line 4 3 0 0 (Some Sample.replace_c) Sample.initial)
     <> (4 + 1, 3 + 1).
Proof.
  split; [|split].
  - simpl. lia.
  - exact I.
  - vm_compute. discriminate.
Qed.

Lemma unidiff_loop_final_cursors_sample :
  fst (unidiff_loop false false Sample.files Sample.memory unit
         Sample.print_1_line 4 3 0 0 (Some Sample.delete_c) Sample.initial)
  = (4 + 1, 3 + 1).
Proof.
  apply (unidiff_loop_final_cursors false false Sample.files Sample.memory unit
           Sample.print_1_line 0 4 0 3 Sample.delete_c Sample.initial).
  - simpl. lia.
  - simpl. lia.
  - exact I.
  - reflexivity.
Defined.

Lemma unchanged_hunk_prints_nothing_sample :
  pr_context_hunk (2 ^ 63 - 1) 3 Sample.files Sample.memory ascii (fun _ => true)
    Sample.re_search "a"%char unit Sample.translate_range Sample.nothing_to_show
    Sample.begin_output Sample.print_1_line Sample.delete_c Sample.initial
  = Sample.initial
  /\ pr_unidiff_hunk (2 ^ 63 - 1) 3 false false Sample.files Sample.memory ascii
       (fun _ => true) Sample.re_search "a"%char unit Sample.translate_range
       Sample.nothing_to_show Sample.begin_output Sample.print_1_line
       Sample.delete_c Sample.initial
     = Sample.initial.
Proof.
  apply (unchanged_hunk_prints_nothing (2 ^ 63 - 1) 3 false false Sample.files
           Sample.memory ascii (fun _ => true) Sample.re_search "a"%char unit
           Sample.translate_range Sample.nothing_to_show Sample.begin_output
           Sample.print_1_line Sample.delete_c Sample.initial).
  reflexivity.
Defined.

Lemma print_context_function_label_sample :
  print_context_function unit Sample.function_line Sample.initial
  = fwrite (function_label Sample.function_line)
      (putc " "%char Sample.initial)
  /\ (List.length (function_label Sample.function_line) <= 40)%nat
  /\ ~ In C.newline (function_label Sample.function_line)
  /\ (forall l c, function_label Sample.function_line = (l ++ [c])%list ->
      C.c_isspace c = false).
Proof.
  apply (print_context_function_label unit Sample.function_line Sample.initial).
  vm_compute. do 20 right. left. reflexivity.
Defined.

Lemma print_context_header_lines_sample :
  print_context_header (- 2 ^ 63) (2 ^ 63 - 1) "%Y-%m-%d" Sample.no_label unit
    (fun _ => None) (fun _ _ _ _ => (0, EmptyString)) unit Sample.files
    Sample.names true Sample.initial
  = fputs
      (header_line "%Y-%m-%d" unit (fun _ => None)
         (fun _ _ _ _ => (0, EmptyString)) "+++" (Sample.files 1%nat)
         (Sample.names 1%nat) (Sample.no_label 1%nat))
      (fputs
         (header_line "%Y-%m-%d" unit (fun _ => None)
            (fun _ _ _ _ => (0, EmptyString)) "---" (Sample.files 0%nat)
            (Sample.names 0%nat) (Sample.no_label 0%nat))
         Sample.initial)
  /\ forall k,
       String.length (C.fmt_prec_d 9 (st_mtime_nsec (file_stat (Sample.files k))))
       = 9%nat.
Proof.
  apply (print_context_header_lines (- 2 ^ 63) (2 ^ 63 - 1) "%Y-%m-%d"
           Sample.no_label unit (fun _ => None) (fun _ _ _ _ => (0, EmptyString))
           unit Sample.files Sample.names true Sample.initial).
  - right. unfold C.INTMAX_MIN, C.INTMAX_MAX. lia.
  - intros [|k]; simpl; lia.
  - intros [|k]; simpl; lia.
Defined.

Lemma find_function_cursors_sample :
  let r := find_function (2 ^ 63 - 1) Sample.memory ascii Sample.re_search
             "b"%char unit (linbuf (Sample.files 0%nat)) 4 Sample.initial in
  find_function_last_search (snd r) = 4
  /\ match fst (find_function_scan Sample.memory ascii Sample.re_search "b"%char
                  (linbuf (Sample.files 0%nat))
                  (find_function_last_search Sample.initial) 4) with
     | Some m => find_function_last_match (snd r) = m
     | None =>
         find_function_last_match (snd r)
         = find_function_last_match Sample.initial
     end
  /\ find_function (2 ^ 63 - 1) Sample.memory ascii Sample.re_search "b"%char
       unit (linbuf (Sample.files 0%nat)) 4 (snd r) = r
  /\ snd (find_function_scan Sample.memory ascii Sample.re_search "b"%char
            (linbuf (Sample.files 0%nat)) (find_function_last_search (snd r)) 4)
     = 0%nat.
Proof.
  apply (find_function_cursors (2 ^ 63 - 1) Sample.memory ascii Sample.re_search
           "b"%char unit (linbuf (Sample.files 0%nat)) 4 Sample.initial).
  lia.
Defined.

Lemma expanded_window_bounds_sample :
  (- prefix_lines (Sample.files 0%nat) <= expand_first 3 Sample.files 2
   /\ 2 - 3 <= expand_first 3 Sample.files 2 <= 2)
  /\ (expand_last 3 (Sample.files 0%nat) 2 <= valid_lines (Sample.files 0%nat) - 1
      /\ 2 <= expand_last 3 (Sample.files 0%nat) 2 <= 2 + 3).
Proof.
  apply (expanded_window_bounds 3 Sample.files (Sample.files 0%nat) 2 2).
  - lia.
  - simpl. lia.
  - simpl. lia.
Defined.

Lemma context_old_lines_marks_sample :
  context_old_lines Sample.files unit Sample.print_1_line 5 0
    (Some Sample.two_changes) Sample.initial
  = print_marked_lines unit Sample.print_1_line (old_mark (Some Sample.two_changes))
      (Sample.files 0%nat) 5 0 Sample.initial.
Proof.
  apply (context_old_lines_marks Sample.files unit Sample.print_1_line
           Sample.two_changes 5 0 Sample.initial).
  simpl. split; [lia|exact I].
Defined.

Lemma context_new_lines_marks_sample :
  context_new_lines Sample.files unit Sample.print_1_line 4 0
    (Some Sample.two_changes) Sample.initial
  = print_marked_lines unit Sample.print_1_line (new_mark (Some Sample.two_changes))
      (Sample.files 1%nat) 4 0 Sample.initial.
Proof.
  apply (context_new_lines_marks Sample.files unit Sample.print_1_line
           Sample.two_changes 4 0 Sample.initial).
  simpl. split; [lia|exact I].
Defined.

Lemma unidiff_loop_prints_hunk_sample :
  unidiff_loop false false Sample.files Sample.memory unit Sample.print_1_line
    4 3 0 0 (Some Sample.delete_c) Sample.initial
  = (4 + 1, 3 + 1,
     unidiff_hunk_lines false false Sample.files Sample.memory unit
       Sample.print_1_line Sample.delete_c 0 0 4 Sample.initial).
Proof.
  apply (unidiff_loop_prints_hunk false false Sample.files Sample.memory unit
           Sample.print_1_line 0 4 0 3 Sample.delete_c Sample.initial).
  - simpl. lia.
  - simpl. lia.
  - simpl. lia.
  - reflexivity.
Defined.

Lemma print_context_function_writes_run_sample :
  exists pre label post,
    Sample.function_line = (pre ++ label ++ post)%list
    /\ Forall (fun c => C.c_isspace c = true) pre
    /\ print_context_function unit Sample.function_line Sample.initial
       = fwrite label (putc " "%char Sample.initial)
    /\ forall c t, label = c :: t -> C.c_isspace c = false.
Proof.
  apply (print_context_function_writes_run unit Sample.function_line Sample.initial).
  vm_compute. do 20 right. left. reflexivity.
Defined.

Lemma expanded_window_balanced_sample :
  2 - expand_first 3 Sample.files 2 = 2 - expand_first 3 Sample.files 2
  /\ expand_last 3 (Sample.files 0%nat) 2 - 2
     = expand_last 3 (Sample.files 1%nat) 1 - 1.
Proof.
  apply (expanded_window_balanced 3 Sample.files 2 2 2 1).
  - left. reflexivity.
  - reflexivity.
Defined.

Lemma hunks_grow_with_context_sample :
  grouped 3 Sample.two_changes (Build_change None 0 1 5 4 false).
Proof.
  apply (hunks_grow_with_context 1 3 Sample.two_changes Sample.two_changes
           (Build_change None 0 1 5 4 false)).
  - lia.
  - reflexivity.
  - reflexivity.
Defined.
